(** * dl/Util.py: multimethod dispatch, default tokens, multipart encoding

    A shallow embedding of [dl/Util.py] and the properties of its
    three parts: the arity-based [MultiMethod] registry, the token
    resolver [def_token] and the form encoder [encode_multipart]. *)

From Stdlib Require Import ZArith Lia Ascii String.
From stdpp Require Import base option gmap strings list fin_maps pretty.

Local Open Scope string_scope.
Local Open Scope Z_scope.

(** ** Python values shared by the three parts *)

(** The exceptions the module raises itself or lets through from the
    interpreter's library. *)
Inductive exception :=
  | TypeError (msg : string)
  | OSError (msg : string)
  | NoSectionError (section : string)
  | NoOptionError (option section : string).

(** [str(n)] on a Python integer: decimal digits, [-] for negatives. *)
Definition str (n : Z) : string := pretty n.

(** [len(l)] as a Python integer. *)
Definition len {A} (l : list A) : Z := Z.of_nat (length l).


(** ** MULTIMETHOD: the class-method registry *)

(** A function object as the registry uses it: its [__name__], the
    attribute [__lastreg__] when it has one, and the identity of its code. *)
#[local] Set Warnings "-register-all".
Inductive pyfunction :=
  PyFunction (fn_name : string) (fn_code : nat) (fn_lastreg : option pyfunction).

Definition __name__ (f : pyfunction) : string :=
  match f with PyFunction n _ _ => n end.

Definition __lastreg__ (f : pyfunction) : option pyfunction :=
  match f with PyFunction _ _ l => l end.

(** [getattr(function, "__lastreg__", function)] *)
Definition getattr_lastreg (function : pyfunction) : pyfunction :=
  default function (__lastreg__ function).

(** Instances of [class MultiMethod]: the attributes [self.module],
    [self.name] and [self.methodmap] of [__init__], and [__lastreg__], which
    the decorator sets on the instance. *)
Record MultiMethod := mkMultiMethod {
  self_module : string;
  self_name : string;
  self_methodmap : gmap string pyfunction;
  self_lastreg : option pyfunction
}.

(** [MultiMethod.__init__] *)
Definition MultiMethod_init (module name : string) : MultiMethod :=
  {| self_module := module; self_name := name; self_methodmap := ∅;
     self_lastreg := None |}.

(** The registry id built at lines 57 and 72:
    [module + '.' + name + '.' + str(nargs)]. *)
Definition reg_name (module name : string) (nargs : Z) : string :=
  ((module +:+ ".") +:+ name) +:+ "." +:+ str nargs.

(** The specification's names for the two [TypeError]s of the class. *)
Definition DuplicateRegistration : exception := TypeError "duplicate registration".
Definition NoMatchingOverload : exception := TypeError "No MultiMethod match found".

(** [MultiMethod.register]. The source updates [self] in place; here the
    updated instance is returned and the caller stores it back. *)
Definition MultiMethod_register (self : MultiMethod) (nargs : Z)
    (function : pyfunction) (module : string) : exception + MultiMethod :=
  let reg_name := reg_name module (__name__ function) nargs in
  match self_methodmap self !! reg_name with
  | Some _ => inl (TypeError "duplicate registration")
  | None =>
      inr {| self_module := self_module self; self_name := self_name self;
             self_methodmap := <[reg_name := function]> (self_methodmap self);
             self_lastreg := self_lastreg self |}
  end.

Section multimethod.
(** Python objects passed to methods, and the part of the interpreter
    state that is not the registry. *)
Context {value world : Type}.

(** The module global [method_registry], a dict of dicts of
    [MultiMethod] instances, next to the rest of the state. *)
Record state := mkState {
  method_registry : gmap string (gmap string MultiMethod);
  globals : world
}.

(** Computations that read and write the state and may raise. *)
Definition M (A : Type) : Type := state → (exception + A) * state.

Definition ret {A} (a : A) : M A := λ s, (inr a, s).
Definition raise {A} (e : exception) : M A := λ s, (inl e, s).
Definition bind {A B} (m : M A) (k : A → M B) : M B := λ s,
  match m s with
  | (inr a, s') => k a s'
  | (inl e, s') => (inl e, s')
  end.
Definition lift {A} (r : exception + A) : M A := λ s, (r, s).

Notation "'do' x <- m ; k" := (bind m (λ x, k))
  (at level 10, x name, m at level 100, k at level 200).
Notation "m ;; k" := (bind m (λ _, k))
  (at level 100, k at level 200, right associativity).

(** Keyword arguments [**kw], in call order. *)
Definition kwargs : Type := list (string * value).

(** Running the body of a function object: [function(instance, *args, **kw)]. *)
Variable apply : pyfunction → value → list value → kwargs → M value.

(** [MultiMethod.__call__] *)
Definition MultiMethod_call (self : MultiMethod) (instance : value)
    (args : list value) (kw : kwargs) : M value :=
  let reg_name := reg_name (self_module self) (self_name self) (len args) in
  let function := self_methodmap self !! reg_name in
  match function with
  | None => raise (TypeError "No MultiMethod match found")
  | Some function => apply function instance args kw
  end.

(** The dict [registry = method_registry[module]] that the closure
    [register] holds, addressed by its key: nothing in the module rebinds
    or removes an entry of [method_registry]. *)
Definition registry_of (module : string) (s : state) : gmap string MultiMethod :=
  method_registry s !!! module.

(** [registry.get(name)] *)
Definition registry_get (module name : string) : M (option MultiMethod) := λ s,
  (inr (registry_of module s !! name), s).

(** [registry[name] = mm], and every later update of the instance [mm],
    which the dict holds by reference. *)
Definition registry_set (module name : string) (mm : MultiMethod) : M () := λ s,
  (inr (), {| method_registry :=
                <[module := <[name := mm]> (registry_of module s)]> (method_registry s);
              globals := globals s |}).

(** The closure [getter] holds [mm]; it is represented by where [mm] lives
    in the registry. *)
Definition getter : Type := string * string.

(** The function that line 84 defines, [def register(function)], as it is
    written: a function of one parameter that files [function] and returns
    [getter]. *)
Definition register_function (module : string) (nargs : Z) (function : pyfunction)
    : M getter :=
  let function := getattr_lastreg function in
  let name := __name__ function in
  do mm <- registry_get module name;
  do mm <- match mm with
           | None =>
               let mm := MultiMethod_init module name in
               registry_set module name mm ;; ret mm
           | Some mm => ret mm
           end;
  do mm <- lift (MultiMethod_register mm nargs function module);
  registry_set module name
    {| self_module := self_module mm; self_name := self_name mm;
       self_methodmap := self_methodmap mm; self_lastreg := Some function |} ;;
  ret (module, name).

(** The interpreter's [TypeError] for a call with [given] positional
    arguments of a function named [name] that has [params] positional
    parameters and no other. The text is the one Python 3 has for a
    function of that name; other versions word it differently, and no
    part of the module reads it. *)
Definition TooManyArguments (name : string) (params given : nat) : exception :=
  TypeError (name +:+ "() takes " +:+ pretty params +:+ " positional argument"
             +:+ (if decide (params = 1%nat) then "" else "s")
             +:+ " but " +:+ pretty given +:+ " were given").

(** A call with [given] positional arguments, and no keyword, of such a
    function: the interpreter runs the body when the numbers agree, and
    raises when more arguments are given than there are parameters, the
    one mismatch the module meets. *)
Definition call_positional {A} (name : string) (params given : nat) (body : M A)
    : M A :=
  if decide (given = params) then body
  else raise (TooManyArguments name params given).

(** What [@wrapt.decorator] of line 83 makes of [register], as the [wrapt]
    package documents its decorators: applied to a function, the decorated
    [register] is not run; the function comes back inside a
    [FunctionWrapper] that holds it as [__wrapped__] next to the closure,
    and a call of the wrapper calls the closure as
    [register(wrapped, instance, args, kwargs)]. The closure is given by
    the arguments of the call of [multimethod] that made it. *)
Record FunctionWrapper := mkFunctionWrapper {
  __wrapped__ : pyfunction;
  _self_wrapper : string * Z
}.

(** The name [register] as line 83 binds it, applied to [function]. *)
Definition register (module : string) (nargs : Z) (function : pyfunction)
    : M FunctionWrapper :=
  ret {| __wrapped__ := function; _self_wrapper := (module, nargs) |}.

(** A call of a wrapper, [wrapper(instance, *args, **kwargs)] or the same
    through an object: four positional arguments for the one parameter of
    [register]. *)
Definition FunctionWrapper_call (self : FunctionWrapper) (instance : value)
    (args : list value) (kw : kwargs) : M getter :=
  call_positional "register" 1 4
    (register_function (_self_wrapper self).1 (_self_wrapper self).2 (__wrapped__ self)).

(** [multimethod(module, nargs)]: makes sure the module has its dict
    (lines 99-101) and returns [register]. *)
Definition multimethod (module : string) (nargs : Z)
    : M (pyfunction → M FunctionWrapper) := λ s,
  let method_registry' :=
    if decide (module ∈ dom (method_registry s)) then method_registry s
    else <[module := ∅]> (method_registry s) in
  (inr (register module nargs),
   {| method_registry := method_registry'; globals := globals s |}).

(** [@multimethod(module, nargs)] in front of [def function]. *)
Definition decorate (module : string) (nargs : Z) (function : pyfunction)
    : M FunctionWrapper :=
  do register <- multimethod module nargs;
  register function.

(** [getter(instance, *args, **kwargs)]: a call of the instance [mm] the
    closure holds, [None] where no such instance has been made. *)
Definition getter_call (g : getter) (instance : value) (args : list value)
    (kw : kwargs) (s : state) : option ((exception + value) * state) :=
  match method_registry s !! g.1 ≫= (.!! g.2) with
  | Some mm => Some (MultiMethod_call mm instance args kw s)
  | None => None
  end.

End multimethod.

(** ** Default tokens *)

Definition ANON_TOKEN : string := "anonymous.0.0.anon_access".

(** What [def_token] asks of the operating system and of [ConfigParser]. *)
Record environ := mkEnviron {
  (** [os.path.expanduser('~')] *)
  expanduser : string;
  (** [os.path.exists(path)] *)
  path_exists : string → bool;
  (** [os.getlogin()], which raises [OSError] without a controlling terminal *)
  getlogin : exception + string;
  (** [open(path, "r")] followed by [read]: the text of the file, or the
      error of [open] *)
  open_read : string → exception + string;
  (** [config.read(path)], which raises on a file that does not parse *)
  config_read : string → exception + ();
  (** [config.get(section, option)] after [config.read(path)]; an option
      without a value reads as [None] under [allow_no_value=True] *)
  config_get : string → string → string → exception + option string
}.

(** The calls made to the outside, in the order they are made. *)
Inductive event :=
  | Eexpanduser
  | Eexists (path : string)
  | Eopen (path : string)
  | Econfig_read (path : string)
  | Econfig_get (section option : string)
  | Egetlogin.

(** Computations that may raise and that log their calls. *)
Definition IO (A : Type) : Type := (exception + A) * list event.

Definition io_ret {A} (a : A) : IO A := (inr a, []).
Definition io_bind {A B} (m : IO A) (k : A → IO B) : IO B :=
  match m with
  | (inr a, t) => let (r, t') := k a in (r, (t ++ t')%list)
  | (inl e, t) => (inl e, t)
  end.
Definition io_call {A} (e : event) (r : exception + A) : IO A := (r, [e]).

Notation "'let*' x := m 'in' k" := (io_bind m (λ x, k))
  (at level 10, x name, m at level 100, k at level 200).

(** [s.split(sep)] for a separator of one character. *)
Fixpoint split (sep : ascii) (s : string) : list string :=
  match s with
  | EmptyString => [EmptyString]
  | String c s' =>
      if decide (c = sep) then EmptyString :: split sep s'
      else match split sep s' with
           | x :: xs => String c x :: xs
           | [] => [String c EmptyString]
           end
  end.

(** [fd.read(n)]: at most [n] characters. *)
Fixpoint read (n : nat) (s : string) : string :=
  match n, s with
  | S n', String c s' => String c (read n' s')
  | _, _ => EmptyString
  end.

Definition newline : ascii := "010"%char.

(** [s.lstrip('\n')], and [s.strip('\n')] through the reversed string. *)
Fixpoint lstrip_newline (s : string) : string :=
  match s with
  | String c s' => if decide (c = newline) then lstrip_newline s' else s
  | EmptyString => EmptyString
  end.

Definition strip_newline (s : string) : string :=
  String.rev (lstrip_newline (String.rev (lstrip_newline s))).

(** [readTokenFile] *)
Definition readTokenFile (env : environ) (tok_file : string) : IO string :=
  let* found := io_call (Eexists tok_file) (inr (path_exists env tok_file)) in
  if negb found then io_ret ANON_TOKEN
  else
    let* text := io_call (Eopen tok_file) (open_read env tok_file) in
    let user_tok := strip_newline (read 128 text) in
    io_ret user_tok.

(** ['%s' % x] for a value that is a string or [None]. *)
Definition fmt_s (x : option string) : string := default "None" x.

(** [def_token]; [tok] is [None] or a string. *)
Definition def_token (env : environ) (tok : option string) : IO string :=
  let* home0 := io_call Eexpanduser (inr (expanduser env)) in
  let home := home0 +:+ "/.datalab" in
  if decide (tok = None ∨ tok = Some "") then
    let* have_conf := io_call (Eexists (home +:+ "/dl.conf"))
                              (inr (path_exists env (home +:+ "/dl.conf"))) in
    if (have_conf : bool) then
      let* _ := io_call (Econfig_read (home +:+ "/dl.conf"))
                        (config_read env (home +:+ "/dl.conf")) in
      let* _status := io_call (Econfig_get "login" "status")
                              (config_get env (home +:+ "/dl.conf") "login" "status") in
      if decide (_status = Some "loggedin") then
        let* _user := io_call (Econfig_get "login" "user")
                              (config_get env (home +:+ "/dl.conf") "login" "user") in
        let tok_file := home +:+ "/id_token." +:+ fmt_s _user in
        readTokenFile env tok_file
      else io_ret ANON_TOKEN
    else
      let* login := io_call Egetlogin (getlogin env) in
      let tok_file := home +:+ "/id_token." +:+ login in
      let* have_home := io_call (Eexists home) (inr (path_exists env home)) in
      if negb have_home then io_ret ANON_TOKEN
      else
        let* have_tok := io_call (Eexists tok_file) (inr (path_exists env tok_file)) in
        if negb have_tok then io_ret ANON_TOKEN
        else readTokenFile env tok_file
  else
    let tok := default "" tok in
    if decide (4 ≤ len (split "." tok)) then io_ret tok
    else if decide (len (split "." tok) = 1) then
      let tok_file := home +:+ "/id_token." +:+ tok in
      readTokenFile env tok_file
    else io_ret ANON_TOKEN.

(** ** Multipart form data *)

Definition quote : ascii := "034"%char.
Definition backslash : ascii := "092"%char.
Definition CRLF : string := String "013"%char (String "010"%char EmptyString).

(** [string.digits + string.ascii_letters] *)
Definition _BOUNDARY_CHARS : string :=
  "0123456789" +:+ "abcdefghijklmnopqrstuvwxyz" +:+ "ABCDEFGHIJKLMNOPQRSTUVWXYZ".

(** The local function [escape_quote]: [s.replace('"', '\\"')]. *)
Fixpoint escape_quote (s : string) : string :=
  match s with
  | EmptyString => EmptyString
  | String c s' =>
      if decide (c = quote) then String backslash (String quote (escape_quote s'))
      else String c (escape_quote s')
  end.

(** [sep.join(lines)] *)
Fixpoint join (sep : string) (lines : list string) : string :=
  match lines with
  | [] => EmptyString
  | [l] => l
  | l :: ls => l +:+ sep +:+ join sep ls
  end.

(** Values of form fields, rendered with [str(value)]. *)
Inductive field_value :=
  | FStr (s : string)
  | FInt (n : Z).

Definition str_value (v : field_value) : string :=
  match v with
  | FStr s => s
  | FInt n => str n
  end.

(** The dict given for a file: the keys ['filename'] and ['content'], and
    ['mimetype'] when present. *)
Record file_value := mkFile {
  filename : string;
  content : string;
  mimetype : option string
}.

Section encode_multipart.
(** [mimetypes.guess_type(filename)[0]] of the interpreter's library. *)
Variable guess_type : string → option string.
(** The index drawn by the [i]-th [random.choice]. *)
Variable random_index : nat → nat.

(** [random.choice(seq)] at draw [i] *)
Definition random_choice (seq : string) (i : nat) : ascii :=
  default "000"%char (String.get (random_index i mod String.length seq)%nat seq).

(** [x or 'application/octet-stream'] *)
Definition or_octet_stream (x : option string) : string :=
  match x with
  | Some t => if decide (t = "") then "application/octet-stream" else t
  | None => "application/octet-stream"
  end.

Definition field_lines (boundary : string) (kv : string * field_value) : list string :=
  let (name, value) := kv in
  [ "--" +:+ boundary;
    "Content-Disposition: form-data; name=" +:+ String quote (escape_quote name)
      +:+ String quote "";
    "";
    str_value value ].

Definition file_lines (boundary : string) (kv : string * file_value) : list string :=
  let (name, value) := kv in
  let filename := filename value in
  let mimetype :=
    match mimetype value with
    | Some m => m
    | None => or_octet_stream (guess_type filename)
    end in
  [ "--" +:+ boundary;
    "Content-Disposition: form-data; name=" +:+ String quote (escape_quote name)
      +:+ String quote ("; filename=" +:+ String quote (escape_quote filename)
      +:+ String quote "");
    "Content-Type: " +:+ mimetype;
    "";
    content value ].

(** [encode_multipart]; the dicts [fields] and [files] are given by their
    items in iteration order. *)
Definition encode_multipart (fields : list (string * field_value))
    (files : list (string * file_value)) (boundary : option string)
    : string * gmap string string :=
  let boundary :=
    match boundary with
    | None =>
        string_of_list_ascii (List.map (random_choice _BOUNDARY_CHARS) (seq 0 30))
    | Some b => b
    end in
  let lines : list string := [] in
  let lines := (lines ++ List.concat (List.map (field_lines boundary) fields))%list in
  let lines := (lines ++ List.concat (List.map (file_lines boundary) files))%list in
  let lines := (lines ++ [ "--" +:+ boundary +:+ "--"; "" ])%list in
  let body := join CRLF lines in
  let headers : gmap string string :=
    <["Content-Length" := str (Z.of_nat (String.length body))]>
      (<["Content-Type" := "multipart/form-data; boundary=" +:+ boundary]> ∅) in
  (body, headers).

End encode_multipart.

(** ** Histories of the registry *)

Arguments state : clear implicits.
Arguments M : clear implicits.
Arguments kwargs : clear implicits.

(** The [MultiMethod] instance at [method_registry[module][name]]. *)
Definition lookup_mm {world} (s : state world) (module name : string)
    : option MultiMethod :=
  method_registry s !! module ≫= (.!! name).

(** An overload entry: namespace, method name, arity and the callable. *)
Definition entry : Type := string * string * Z * pyfunction.

(** Where an entry is stored: the two dict keys that lead to the instance
    and the key in its [methodmap]. *)
Definition location : Type := string * string * string.

(** The entries a state holds for a triple: every instance that answers to
    [module] and [name] and has the registry id of the triple. *)
Definition overload_entries {world} (s : state world) (module name : string)
    (nargs : Z) : list (location * pyfunction) :=
  '(k1, registry) ← map_to_list (method_registry s);
  '(k2, mm) ← map_to_list registry;
  if decide (self_module mm = module ∧ self_name mm = name) then
    match self_methodmap mm !! reg_name module name nargs with
    | Some function => [((k1, k2, reg_name module name nargs), function)]
    | None => []
    end
  else [].

Section histories.
Context {value world : Type}.
Variable apply : pyfunction → value → list value → kwargs value → M world value.

(** The registry and one instance of [MultiMethod], as they are reached
    from the empty registry and a new instance by calls of [multimethod],
    of the [register] it returns, of the wrappers that [register]
    returns, of [MultiMethod.register] and [MultiMethod.__call__] on the
    instance and of getters, whether they return or raise, with the
    entries filed by the calls of [MultiMethod.register] that returned,
    oldest first. The callables that a call runs are given the state, not
    the instance. No part of the repository reaches through
    [__wrapped__] for the function of line 84, and no history does. *)
Inductive reachable : list entry → state world → MultiMethod → Prop :=
  | reach_empty w module name :
      reachable [] {| method_registry := ∅; globals := w |}
                (MultiMethod_init module name)
  | reach_multimethod L s self module nargs r s' :
      reachable L s self →
      multimethod module nargs s = (r, s') →
      reachable L s' self
  | reach_decorate L s self module nargs function r s' :
      reachable L s self →
      register module nargs function s = (r, s') →
      reachable L s' self
  | reach_wrapper_call L s self wrapper (instance : value) (args : list value)
      (kw : kwargs value) r s' :
      reachable L s self →
      FunctionWrapper_call wrapper instance args kw s = (r, s') →
      reachable L s' self
  | reach_register L s self nargs function module self' :
      reachable L s self →
      MultiMethod_register self nargs function module = inr self' →
      reachable (L ++ [(module, __name__ function, nargs, function)]) s self'
  | reach_register_raise L s self nargs function module e :
      reachable L s self →
      MultiMethod_register self nargs function module = inl e →
      reachable L s self
  | reach_call L s self instance args kw r s' :
      reachable L s self →
      MultiMethod_call apply self instance args kw s = (r, s') →
      reachable L s' self
  | reach_getter_call L s self g instance args kw r s' :
      reachable L s self →
      getter_call apply g instance args kw s = Some (r, s') →
      reachable L s' self.

(** One such call, from any state and instance. *)
Inductive step : state world * MultiMethod → state world * MultiMethod → Prop :=
  | step_multimethod s self module nargs r s' :
      multimethod module nargs s = (r, s') → step (s, self) (s', self)
  | step_decorate s self module nargs function r s' :
      register module nargs function s = (r, s') → step (s, self) (s', self)
  | step_wrapper_call s self wrapper (instance : value) (args : list value)
      (kw : kwargs value) r s' :
      FunctionWrapper_call wrapper instance args kw s = (r, s') →
      step (s, self) (s', self)
  | step_register s self nargs function module self' :
      MultiMethod_register self nargs function module = inr self' →
      step (s, self) (s, self')
  | step_register_raise s self nargs function module e :
      MultiMethod_register self nargs function module = inl e →
      step (s, self) (s, self)
  | step_call s self instance args kw r s' :
      MultiMethod_call apply self instance args kw s = (r, s') →
      step (s, self) (s', self)
  | step_getter_call s self g instance args kw r s' :
      getter_call apply g instance args kw s = Some (r, s') →
      step (s, self) (s', self).

(** Sequences of getter calls alone. *)
Inductive dispatches : state world → state world → Prop :=
  | dispatches_nil s : dispatches s s
  | dispatches_cons s g instance args kw r s' s'' :
      getter_call apply g instance args kw s = Some (r, s') →
      dispatches s' s'' →
      dispatches s s''.

(** Callables that leave the registry as they found it. *)
Definition registry_frame : Prop :=
  ∀ function instance args kw s,
    method_registry (apply function instance args kw s).2 = method_registry s.

End histories.

(** A registry whose dicts hold no instance. *)
Definition registry_bare {world} (s : state world) : Prop :=
  ∀ module name, lookup_mm s module name = None.

(** The registry id of an entry. *)
Definition entry_id (e : entry) : string := reg_name e.1.1.1 e.1.1.2 e.1.2.

(** An instance once the callable is filed under [key] and remembered as
    [__lastreg__]. *)
Definition filed (mm : MultiMethod) (key : string) (function : pyfunction) : MultiMethod :=
  {| self_module := self_module mm; self_name := self_name mm;
     self_methodmap := <[key := function]> (self_methodmap mm);
     self_lastreg := Some function |}.

(** ** A class with an overloaded method, to run the registry on

    [area(self, radius)] and [area(self, length, width)] of a module
    [shapes], with integers, strings and [None] as values; the rest of the
    state counts the calls made. *)
Inductive pyvalue :=
  | VNone
  | VInt (n : Z)
  | VStr (s : string).

Definition area_radius : pyfunction := PyFunction "area" 1 None.
Definition area_rectangle : pyfunction := PyFunction "area" 2 None.

Definition shapes_apply (function : pyfunction) (instance : pyvalue)
    (args : list pyvalue) (kw : kwargs pyvalue) : M nat pyvalue := λ s,
  let s' := {| method_registry := method_registry s; globals := S (globals s) |} in
  match function, args with
  | PyFunction _ 1%nat _, [VInt r] => (inr (VInt (3 * r * r)), s')
  | PyFunction _ 2%nat _, [VInt l; VInt w] => (inr (VInt (l * w)), s')
  | _, _ => (inl (TypeError "unsupported operand type(s)"), s')
  end.

Definition shapes_empty : state nat := {| method_registry := ∅; globals := 0%nat |}.

(** The state after the two definitions of [area] have been decorated. *)
Definition shapes_loaded : state nat :=
  (decorate "shapes" 2 area_rectangle (decorate "shapes" 1 area_radius shapes_empty).2).2.

(** The two entries of [area], in the order of their definitions. *)
Definition shapes_log : list entry :=
  [("shapes", "area", 1, area_radius); ("shapes", "area", 2, area_rectangle)].

(** An instance for [shapes.area] after [MultiMethod.register] has
    filed the two functions with it. *)
Definition shapes_registered : MultiMethod :=
  {| self_module := "shapes"; self_name := "area";
     self_methodmap :=
       <["shapes.area.2" := area_rectangle]> (<["shapes.area.1" := area_radius]> ∅);
     self_lastreg := None |}.

(** An instance for [shapes.area] with both overloads on file and
    [__lastreg__] set to the later one. *)
Definition shapes_area : MultiMethod :=
  filed (filed (MultiMethod_init "shapes" "area") "shapes.area.1" area_radius)
        "shapes.area.2" area_rectangle.

(** A third function named [area], for one positional argument again. *)
Definition area_side : pyfunction := PyFunction "area" 3 None.

(** ** Counting separators *)

(** [s.count(c)] for a character [c]. *)
Fixpoint count_char (c : ascii) (s : string) : nat :=
  match s with
  | EmptyString => 0
  | String c' s' => (if decide (c' = c) then 1 else 0) + count_char c s'
  end.

(** ** Environments to run the other two parts in

    An interpreter whose terminal has a user but whose disk has no file of
    the module, one where the user [alice] is logged in to the Data Lab,
    and a library that knows the type of text files. *)
Definition bare_environ : environ :=
  {| expanduser := "/home/user";
     path_exists := λ _, false;
     getlogin := inr "user";
     open_read := λ _, inl (OSError "No such file or directory");
     config_read := λ _, inr ();
     config_get := λ _ section _, inl (NoSectionError section) |}.

Definition alice_environ : environ :=
  {| expanduser := "/home/alice";
     path_exists := λ path,
       bool_decide (path = "/home/alice/.datalab" ∨
                    path = "/home/alice/.datalab/dl.conf" ∨
                    path = "/home/alice/.datalab/id_token.alice");
     getlogin := inl (OSError "Inappropriate ioctl for device");
     open_read := λ path,
       if decide (path = "/home/alice/.datalab/id_token.alice")
       then inr ("alice.42.42.secret" +:+ String newline "")
       else inl (OSError "No such file or directory");
     config_read := λ _, inr ();
     config_get := λ _ section option,
       if decide (section = "login") then
         if decide (option = "status") then inr (Some "loggedin")
         else if decide (option = "user") then inr (Some "alice")
         else inl (NoOptionError option section)
       else inl (NoSectionError section) |}.

Definition guess_text (filename : string) : option string :=
  if decide (filename = "F.TXT" ∨ filename = "f.txt") then Some "text/plain" else None.


(** ** Lines with their line ends *)

(** The lines of a body one after the other, each followed by CRLF. *)
Definition terminated (lines : list string) : string :=
  foldr (λ l acc, l +:+ CRLF +:+ acc) "" lines.

(** ** More environments and inputs to run the module in *)

(** A user [bob] without a terminal, whose token file exists and cannot be
    opened, and who has no [dl.conf]. *)
Definition locked_environ : environ :=
  {| expanduser := "/home/bob";
     path_exists := λ path,
       bool_decide (path = "/home/bob/.datalab" ∨
                    path = "/home/bob/.datalab/id_token.bob");
     getlogin := inl (OSError "Inappropriate ioctl for device");
     open_read := λ _, inl (OSError "Permission denied");
     config_read := λ _, inr ();
     config_get := λ _ section _, inl (NoSectionError section) |}.

(** A user [carol] who has logged out of the Data Lab; her token file is
    still there. *)
Definition loggedout_environ : environ :=
  {| expanduser := "/home/carol";
     path_exists := λ _, true;
     getlogin := inr "carol";
     open_read := λ _, inr "carol.7.7.old";
     config_read := λ _, inr ();
     config_get := λ _ section option,
       if decide (section = "login" ∧ option = "status") then inr (Some "loggedout")
       else inr (Some "carol") |}.

(** The instance for [shapes.area] once [MultiMethod.register] has filed
    [area(self, radius)] with it. *)
Definition shapes_area_1 : MultiMethod :=
  {| self_module := "shapes"; self_name := "area";
     self_methodmap := <["shapes.area.1" := area_radius]> ∅;
     self_lastreg := None |}.

(** An interpreter without a terminal and without any file of the module. *)
Definition detached_environ : environ :=
  {| expanduser := "/home/user";
     path_exists := λ _, false;
     getlogin := inl (OSError "Inappropriate ioctl for device");
     open_read := λ _, inl (OSError "No such file or directory");
     config_read := λ _, inr ();
     config_get := λ _ section _, inl (NoSectionError section) |}.

(** A file that comes with its type. *)
Definition data_file : string * file_value :=
  ("FILE", {| filename := "F.BIN"; content := "DATA";
              mimetype := Some "application/x-data" |}).

(** * Properties *)

(** ** Registry ids *)

Lemma str_inj (a b : Z) : str a = str b → a = b.
Proof. unfold str. apply pretty_Z_inj. Qed.

Lemma reg_name_inj (module name : string) (a b : Z) :
  reg_name module name a = reg_name module name b → a = b.
Proof.
  unfold reg_name. intros H.
  apply String.app_inj in H. apply String.app_inj in H. by apply str_inj.
Qed.

Section registry_facts.
Context {value world : Type}.
Implicit Types (s : state world) (mm : MultiMethod).

Lemma registry_of_lookup s module name :
  registry_of module s !! name = lookup_mm s module name.
Proof.
  unfold registry_of, lookup_mm. rewrite lookup_total_alt.
  destruct (method_registry s !! module); simpl; [done|apply lookup_empty].
Qed.

Lemma multimethod_run s module nargs r s' :
  multimethod module nargs s = (r, s') →
  r = inr (register module nargs) ∧ globals s' = globals s ∧
  module ∈ dom (method_registry s') ∧
  dom (method_registry s) ⊆ dom (method_registry s') ∧
  ∀ m n, lookup_mm s' m n = lookup_mm s m n.
Proof.
  unfold multimethod. intros Hrun. simplify_eq. simpl.
  split; [done|]. split; [done|]. case_decide as Hin.
  - split; [done|]. split; [done|]. done.
  - split; [set_solver|]. split; [set_solver|]. intros m n. unfold lookup_mm. simpl.
    destruct (decide (m = module)) as [->|Hm].
    + rewrite lookup_insert_eq. simpl. rewrite lookup_empty.
      apply not_elem_of_dom in Hin. by rewrite Hin.
    + by rewrite lookup_insert_ne.
Qed.

Lemma register_run s module nargs function :
  register module nargs function s
  = (inr {| __wrapped__ := function; _self_wrapper := (module, nargs) |}, s).
Proof. done. Qed.

Lemma FunctionWrapper_call_run s (wrapper : FunctionWrapper) (instance : value)
    (args : list value) (kw : kwargs value) :
  FunctionWrapper_call wrapper instance args kw s
  = (inl (TooManyArguments "register" 1 4), s).
Proof. done. Qed.

Lemma decorate_run s module nargs function :
  decorate module nargs function s
  = (inr {| __wrapped__ := function; _self_wrapper := (module, nargs) |},
     (multimethod module nargs s).2).
Proof. done. Qed.

Lemma registry_bare_empty (w : world) :
  registry_bare {| method_registry := ∅; globals := w |}.
Proof. intros m n. unfold lookup_mm. simpl. by rewrite lookup_empty. Qed.

Lemma registry_bare_same s s' :
  method_registry s' = method_registry s → registry_bare s → registry_bare s'.
Proof. intros Heq Hbare m n. unfold lookup_mm. rewrite Heq. apply Hbare. Qed.
End registry_facts.

(** ** What a history leaves in the registry and in the instance *)

Section reachable_facts.
Context {value world : Type}.
Variable apply : pyfunction → value → list value → kwargs value → M world value.
Hypothesis apply_frame : registry_frame apply.
Implicit Types (s : state world) (mm : MultiMethod) (L : list entry).

Lemma MultiMethod_call_frame mm instance args kw s :
  method_registry (MultiMethod_call apply mm instance args kw s).2 = method_registry s.
Proof.
  unfold MultiMethod_call.
  destruct (self_methodmap mm !! _); [apply apply_frame|done].
Qed.

Lemma getter_call_frame g instance args kw s r s' :
  getter_call apply g instance args kw s = Some (r, s') →
  method_registry s' = method_registry s.
Proof.
  unfold getter_call. destruct (_ ≫= _) as [mm|]; [|done].
  intros [= Hrun]. pose proof (MultiMethod_call_frame mm instance args kw s) as H.
  by rewrite Hrun in H.
Qed.

Lemma reachable_bare L s self : reachable apply L s self → registry_bare s.
Proof.
  induction 1 as [w module name
                 |L s self module nargs r s' _ IH Hrun
                 |L s self module nargs function r s' _ IH Hrun
                 |L s self wrapper instance args kw r s' _ IH Hrun
                 |L s self nargs function module self' _ IH Hrun
                 |L s self nargs function module e _ IH Hrun
                 |L s self instance args kw r s' _ IH Hrun
                 |L s self g instance args kw r s' _ IH Hrun].
  - apply registry_bare_empty.
  - apply multimethod_run in Hrun as (_ & _ & _ & _ & Hsame).
    intros m n. rewrite Hsame. apply IH.
  - rewrite register_run in Hrun. by simplify_eq.
  - rewrite FunctionWrapper_call_run in Hrun. by simplify_eq.
  - done.
  - done.
  - eapply registry_bare_same; [|done].
    pose proof (MultiMethod_call_frame self instance args kw s) as H.
    by rewrite Hrun in H.
  - eapply registry_bare_same; [|done]. by eapply getter_call_frame.
Qed.
End reachable_facts.

Section instance_facts.
Context {value world : Type}.
Variable apply : pyfunction → value → list value → kwargs value → M world value.
Implicit Types (s : state world) (mm : MultiMethod) (L : list entry).

Lemma MultiMethod_register_cases self nargs function module :
  let key := reg_name module (__name__ function) nargs in
  (is_Some (self_methodmap self !! key) ∧
   MultiMethod_register self nargs function module = inl DuplicateRegistration) ∨
  (self_methodmap self !! key = None ∧
   MultiMethod_register self nargs function module
   = inr {| self_module := self_module self; self_name := self_name self;
            self_methodmap := <[key := function]> (self_methodmap self);
            self_lastreg := self_lastreg self |}).
Proof.
  intros key. subst key. unfold MultiMethod_register.
  destruct (self_methodmap self !! _) eqn:Hkey; [left|right]; by eauto.
Qed.

Lemma reachable_instance L s self :
  reachable apply L s self →
  (∀ e, e ∈ L → self_methodmap self !! entry_id e = Some e.2) ∧
  (∀ key function, self_methodmap self !! key = Some function →
     ∃ e, e ∈ L ∧ entry_id e = key ∧ e.2 = function) ∧
  NoDup (entry_id <$> L) ∧
  self_lastreg self = None.
Proof.
  induction 1 as [w module name
                 |L s self module nargs r s' _ IH Hrun
                 |L s self module nargs function r s' _ IH Hrun
                 |L s self wrapper instance args kw r s' _ IH Hrun
                 |L s self nargs function module self' _ IH Hrun
                 |L s self nargs function module e _ IH Hrun
                 |L s self instance args kw r s' _ IH Hrun
                 |L s self g instance args kw r s' _ IH Hrun]; try done.
  - split; [by intros e ?%elem_of_nil|]. split; [|split; [constructor|done]].
    intros key function. simpl. by rewrite lookup_empty.
  - destruct IH as (Hlog & Hheld & Hnodup & Hlast).
    destruct (MultiMethod_register_cases self nargs function module)
      as [[_ Heq]|[Hkey Heq]]; rewrite Heq in Hrun; [done|].
    injection Hrun as <-. simpl.
    set (key := reg_name module (__name__ function) nargs) in *.
    split; [|split; [|split; [|done]]].
    + intros e [Hin|Hin%list_elem_of_singleton]%elem_of_app; [|subst e].
      * rewrite lookup_insert_ne; [by apply Hlog|].
        intros Heq'. apply Hlog in Hin. rewrite <-Heq' in Hin. congruence.
      * apply lookup_insert_eq.
    + intros key' function' Hlook. destruct (decide (key' = key)) as [->|Hne].
      * rewrite lookup_insert_eq in Hlook. injection Hlook as <-.
        exists (module, __name__ function, nargs, function).
        split; [|done]. apply elem_of_app. right. by apply list_elem_of_singleton.
      * rewrite lookup_insert_ne in Hlook by done.
        destruct (Hheld _ _ Hlook) as (e & Hin & Hid & Hf).
        exists e. split; [|done]. apply elem_of_app. by left.
    + rewrite fmap_app. apply NoDup_app. split; [done|]. split; [|apply NoDup_singleton].
      intros id (e & -> & Hin)%list_elem_of_fmap Hnew. simpl in Hnew.
      apply list_elem_of_singleton in Hnew. apply Hlog in Hin.
      change (entry_id e = key) in Hnew. rewrite Hnew in Hin. congruence.
Qed.

Lemma NoDup_entries L : NoDup (entry_id <$> L) → NoDup L.*1.
Proof.
  intros Hnodup. apply (NoDup_fmap_1 (λ t : string * string * Z, reg_name t.1.1 t.1.2 t.2)).
  by rewrite <-list_fmap_compose.
Qed.

Lemma filter_triple_length L (t : string * string * Z) :
  NoDup L.*1 → (length (filter (λ e : entry, e.1 = t) L) ≤ 1)%nat.
Proof.
  induction L as [|e L IH]; simpl; [lia|].
  intros [Hnotin Hnodup]%NoDup_cons. rewrite filter_cons. case_decide as Heq.
  - destruct (filter (λ e : entry, e.1 = t) L) as [|e' l] eqn:Hfilter; simpl; [lia|].
    destruct Hnotin. assert (e' ∈ filter (λ e : entry, e.1 = t) L) as Hin
      by (rewrite Hfilter; left).
    apply list_elem_of_filter in Hin as [He' Hin]. rewrite Heq, <-He'.
    apply list_elem_of_fmap. by exists e'.
  - by apply IH.
Qed.
End instance_facts.

(** ** The entries a state holds *)

Section overload_entries.
Context {world : Type}.
Implicit Types (s : state world) (mm : MultiMethod).

Lemma elem_of_overload_entries s module name nargs loc function :
  (loc, function) ∈ overload_entries s module name nargs ↔
  ∃ mm, lookup_mm s loc.1.1 loc.1.2 = Some mm ∧
        self_module mm = module ∧ self_name mm = name ∧
        loc.2 = reg_name module name nargs ∧
        self_methodmap mm !! loc.2 = Some function.
Proof.
  unfold overload_entries, lookup_mm. rewrite list_elem_of_bind. split.
  - intros ([k1 registry] & Hin & Hreg%elem_of_map_to_list).
    apply list_elem_of_bind in Hin as ([k2 mm] & Hin & Hmm%elem_of_map_to_list).
    case_decide as Hd; [|by apply elem_of_nil in Hin].
    destruct (self_methodmap mm !! _) as [f|] eqn:Hk; [|by apply elem_of_nil in Hin].
    apply list_elem_of_singleton in Hin. simplify_eq. simpl.
    exists mm. rewrite Hreg. simpl. by destruct Hd.
  - destruct loc as [[k1 k2] key]. simpl. intros (mm & Hmm & Hmod & Hname & -> & Hk).
    destruct (method_registry s !! k1) as [registry|] eqn:Hreg; [|done].
    simpl in Hmm. exists (k1, registry). split; [|by apply elem_of_map_to_list].
    apply list_elem_of_bind. exists (k2, mm). split; [|by apply elem_of_map_to_list].
    rewrite decide_True by done. rewrite Hk. by apply list_elem_of_singleton.
Qed.

Lemma NoDup_overload_entries s module name nargs :
  NoDup (overload_entries s module name nargs).
Proof.
  unfold overload_entries. apply NoDup_bind; [| |apply NoDup_map_to_list].
  - intros [k1 r1] [k1' r1'] [loc f] Hin1%elem_of_map_to_list Hin2%elem_of_map_to_list H1 H2.
    apply list_elem_of_bind in H1 as ([k2 mm] & H1 & _).
    apply list_elem_of_bind in H2 as ([k2' mm'] & H2 & _).
    repeat case_match; try by (apply elem_of_nil in H1 || apply elem_of_nil in H2).
    apply list_elem_of_singleton in H1, H2. simplify_eq. done.
  - intros [k1 registry] _. apply NoDup_bind; [| |apply NoDup_map_to_list].
    + intros [k2 mm] [k2' mm'] [loc f] Hin1%elem_of_map_to_list Hin2%elem_of_map_to_list H1 H2.
      repeat case_match; try by (apply elem_of_nil in H1 || apply elem_of_nil in H2).
      apply list_elem_of_singleton in H1, H2. simplify_eq. done.
    + intros [k2 mm] _. repeat case_match; try apply NoDup_nil_2.
      apply NoDup_singleton.
Qed.
Lemma registry_bare_entries s module name nargs :
  registry_bare s → overload_entries s module name nargs = [].
Proof.
  intros Hbare. apply elem_of_nil_inv. intros [loc function]
    (mm & Hmm & _)%elem_of_overload_entries.
  by rewrite Hbare in Hmm.
Qed.
End overload_entries.

(** ** Dispatch by arity *)

Section dispatch.
Context {value world : Type}.
Variable apply : pyfunction → value → list value → kwargs value → M world value.
Implicit Types (s : state world) (mm : MultiMethod) (L : list entry).


(** C3. In any history from the empty registry and a new instance, by
    calls of [multimethod], of the [register] it returns, of the wrappers,
    of [MultiMethod.register], of the instance and of getters: the calls
    of [MultiMethod.register] that returned filed at most one entry for a
    triple of namespace, method name and arity, and no two of them were
    for the same triple; the instance holds the entries of these calls
    and no other, each under its registry id; and the registry holds no
    entry for the triple, the decorator having filed none. *)
Theorem one_entry_per_triple L s self module name nargs :
  registry_frame apply →
  reachable apply L s self →
  (length (filter (λ e : entry, e.1 = (module, name, nargs)) L) ≤ 1)%nat ∧
  NoDup L.*1 ∧
  (∀ function, (module, name, nargs, function) ∈ L →
     self_methodmap self !! reg_name module name nargs = Some function) ∧
  (∀ key function, self_methodmap self !! key = Some function →
     ∃ e, e ∈ L ∧ entry_id e = key ∧ e.2 = function) ∧
  overload_entries s module name nargs = [].
Proof.
  intros Hframe Hreach.
  destruct (reachable_instance apply L s self Hreach) as (Hlog & Hheld & Hnodup & _).
  apply NoDup_entries in Hnodup.
  split; [by apply filter_triple_length|]. split; [done|].
  split; [intros function Hin; by apply Hlog in Hin|]. split; [done|].
  apply registry_bare_entries. by eapply reachable_bare.
Qed.
End dispatch.

(** ** Duplicate registrations *)

(** C2. Where an instance has a callable on file under the registry id of
    a namespace, a method name and an arity, [MultiMethod.register] of a
    function of that name for the same namespace and arity raises
    DuplicateRegistration, and the instance is as it was. So of two
    functions of one name registered for the same namespace and arity the
    second is refused, whichever comes first. *)
Theorem duplicate_registration (self : MultiMethod) (module : string) (nargs : Z)
    (f g : pyfunction) :
  __name__ f = __name__ g →
  (is_Some (self_methodmap self !! reg_name module (__name__ g) nargs) →
     MultiMethod_register self nargs g module = inl DuplicateRegistration) ∧
  (∀ self', MultiMethod_register self nargs f module = inr self' →
     MultiMethod_register self' nargs g module = inl DuplicateRegistration) ∧
  (∀ self', MultiMethod_register self nargs g module = inr self' →
     MultiMethod_register self' nargs f module = inl DuplicateRegistration).
Proof.
  intros Hname. split_and!.
  - intros [f0 Hf0]. unfold MultiMethod_register. by rewrite Hf0.
  - intros self'. unfold MultiMethod_register. rewrite <-Hname.
    destruct (self_methodmap self !! _); [done|]. intros [= <-]. simpl.
    by rewrite lookup_insert_eq.
  - intros self'. unfold MultiMethod_register. rewrite Hname.
    destruct (self_methodmap self !! _); [done|]. intros [= <-]. simpl.
    by rewrite lookup_insert_eq.
Qed.

(** Once a history has filed an entry for a triple with the instance,
    whatever was called since, the next function registered for the
    triple is refused. *)
Lemma duplicate_after_history {value world : Type}
    (apply : pyfunction → value → list value → kwargs value → M world value)
    (L : list entry) (s : state world) (self : MultiMethod) module name nargs f0 g :
  reachable apply L s self →
  (module, name, nargs, f0) ∈ L →
  __name__ g = name →
  MultiMethod_register self nargs g module = inl DuplicateRegistration.
Proof.
  intros (Hlog & _)%reachable_instance Hin%Hlog <-.
  unfold MultiMethod_register.
  change (self_methodmap self !! reg_name module (__name__ g) nargs = Some f0) in Hin.
  by rewrite Hin.
Qed.

(** ** Dispatch looks at the number of positional arguments only *)

(** C4. Two calls of a [MultiMethod] instance with the same number of
    positional arguments select the same overload, or both find none,
    whatever the instances, the values of the arguments and the keyword
    arguments are, and whatever the callables do. *)
Theorem dispatch_arity_only {value world : Type} (self : MultiMethod)
    (instance1 instance2 : value) (args1 args2 : list value)
    (kw1 kw2 : kwargs value) :
  length args1 = length args2 →
  ∃ selected : option pyfunction,
    ∀ (apply : pyfunction → value → list value → kwargs value → M world value)
      (s : state world),
      MultiMethod_call apply self instance1 args1 kw1 s
      = match selected with
        | Some function => apply function instance1 args1 kw1 s
        | None => (inl NoMatchingOverload, s)
        end ∧
      MultiMethod_call apply self instance2 args2 kw2 s
      = match selected with
        | Some function => apply function instance2 args2 kw2 s
        | None => (inl NoMatchingOverload, s)
        end.
Proof.
  intros Hlen.
  exists (self_methodmap self !! reg_name (self_module self) (self_name self) (len args1)).
  intros apply s. unfold MultiMethod_call, len. rewrite <-Hlen.
  by destruct (self_methodmap self !! _).
Qed.

(** ** Dispatch writes nothing *)

Section frame.
Context {value world : Type}.
Variable apply : pyfunction → value → list value → kwargs value → M world value.
Implicit Types (s : state world) (mm : MultiMethod).

Lemma dispatches_frame s s' :
  registry_frame apply → dispatches apply s s' →
  method_registry s' = method_registry s.
Proof.
  intros Hframe. induction 1 as [|s g instance args kw r s' s'' Hrun _ IH]; [done|].
  rewrite IH. by eapply getter_call_frame.
Qed.

(** C5. A call of a [MultiMethod] instance that finds no overload raises
    NoMatchingOverload and leaves the whole state as it was; one that
    finds an overload ends in the state in which the call of that
    callable ends, with its result. So where callables leave the registry
    alone, so does every call of an instance and every sequence of calls
    of getters: the dicts of the registry and the [methodmap] of every
    instance are the same before and after. *)
Theorem dispatch_frame self instance args kw s :
  match self_methodmap self !! reg_name (self_module self) (self_name self) (len args) with
  | None =>
      MultiMethod_call apply self instance args kw s = (inl NoMatchingOverload, s)
  | Some function =>
      MultiMethod_call apply self instance args kw s = apply function instance args kw s
  end ∧
  (registry_frame apply →
     method_registry (MultiMethod_call apply self instance args kw s).2
     = method_registry s ∧
     ∀ s', dispatches apply s s' → method_registry s' = method_registry s).
Proof.
  split.
  - unfold MultiMethod_call. by destruct (self_methodmap self !! _).
  - intros Hframe. split.
    + by apply MultiMethod_call_frame.
    + intros s'. by apply dispatches_frame.
Qed.
End frame.

(** ** The registry at work on [shapes.area] *)

Lemma shapes_frame : registry_frame shapes_apply.
Proof. intros function instance args kw s. unfold shapes_apply. by repeat case_match. Qed.

Lemma decorate_reachable {value world : Type}
    (apply : pyfunction → value → list value → kwargs value → M world value)
    (L : list entry) (s : state world) (self : MultiMethod) module nargs function :
  reachable apply L s self →
  reachable apply L (decorate module nargs function s).2 self.
Proof.
  intros Hreach. rewrite decorate_run.
  change (reachable apply L (multimethod module nargs s).2 self).
  eapply (reach_decorate apply L (multimethod module nargs s).2 self module nargs function);
    [|apply register_run].
  eapply (reach_multimethod apply L s self module nargs); [done|].
  apply surjective_pairing.
Qed.

Lemma shapes_reachable :
  reachable shapes_apply shapes_log shapes_loaded shapes_registered.
Proof.
  apply (reach_register shapes_apply [("shapes", "area", 1, area_radius)]
           shapes_loaded shapes_area_1 2 area_rectangle "shapes" shapes_registered);
    [|vm_compute; reflexivity].
  apply (reach_register shapes_apply [] shapes_loaded (MultiMethod_init "shapes" "area")
           1 area_radius "shapes" shapes_area_1); [|vm_compute; reflexivity].
  unfold shapes_loaded. do 2 apply decorate_reachable. apply reach_empty.
Qed.




Lemma one_entry_per_triple_witness :
  (length (filter (λ e : entry, e.1 = ("shapes", "area", 2%Z)) shapes_log) ≤ 1)%nat ∧
  NoDup shapes_log.*1 ∧
  (∀ function, (("shapes", "area", 2, function) : entry) ∈ shapes_log →
     self_methodmap shapes_registered !! reg_name "shapes" "area" 2 = Some function) ∧
  (∀ key function, self_methodmap shapes_registered !! key = Some function →
     ∃ e, e ∈ shapes_log ∧ entry_id e = key ∧ e.2 = function) ∧
  overload_entries shapes_loaded "shapes" "area" 2 = [].
Proof.
  exact (one_entry_per_triple shapes_apply shapes_log shapes_loaded shapes_registered
           "shapes" "area" 2 shapes_frame shapes_reachable).
Defined.

Lemma duplicate_registration_witness :
  MultiMethod_register shapes_area_1 1 area_side "shapes" = inl DuplicateRegistration ∧
  MultiMethod_register
    {| self_module := "shapes"; self_name := "area";
       self_methodmap := <["shapes.area.1" := area_side]> ∅;
       self_lastreg := None |} 1 area_radius "shapes"
  = inl DuplicateRegistration.
Proof.
  destruct (duplicate_registration (MultiMethod_init "shapes" "area") "shapes" 1
              area_radius area_side eq_refl) as (_ & Hfirst & Hsecond).
  split.
  - apply (Hfirst shapes_area_1). vm_compute; reflexivity.
  - apply (Hsecond {| self_module := "shapes"; self_name := "area";
                      self_methodmap := <["shapes.area.1" := area_side]> ∅;
                      self_lastreg := None |}).
    vm_compute; reflexivity.
Defined.

Lemma dispatch_arity_only_witness :
  ∃ selected : option pyfunction,
    ∀ (apply : pyfunction → pyvalue → list pyvalue → kwargs pyvalue → M nat pyvalue)
      (s : state nat),
      MultiMethod_call apply shapes_area VNone [VInt 2] [] s
      = match selected with
        | Some function => apply function VNone [VInt 2] [] s
        | None => (inl NoMatchingOverload, s)
        end ∧
      MultiMethod_call apply shapes_area (VStr "square") [VStr "two"] [("unit", VStr "cm")] s
      = match selected with
        | Some function => apply function (VStr "square") [VStr "two"] [("unit", VStr "cm")] s
        | None => (inl NoMatchingOverload, s)
        end.
Proof.
  exact (dispatch_arity_only shapes_area VNone (VStr "square") [VInt 2] [VStr "two"]
           [] [("unit", VStr "cm")] eq_refl).
Defined.

Lemma dispatch_frame_witness :
  MultiMethod_call shapes_apply shapes_area VNone [] [] shapes_loaded
  = (inl NoMatchingOverload, shapes_loaded) ∧
  method_registry (MultiMethod_call shapes_apply shapes_area VNone [VInt 2] [] shapes_loaded).2
  = method_registry shapes_loaded.
Proof.
  split.
  - exact (proj1 (dispatch_frame shapes_apply shapes_area VNone [] [] shapes_loaded)).
  - exact (proj1 (proj2 (dispatch_frame shapes_apply shapes_area VNone [VInt 2] []
                           shapes_loaded) shapes_frame)).
Defined.

(** The two decorations of [area] leave the registry with an empty dict
    for [shapes]; the function that line 84 defines would have filed the
    callable, had it been the one called; and a call of the decorated
    [area] ends in the interpreter's [TypeError]. *)
Example shapes_loaded_registry : method_registry shapes_loaded = {[ "shapes" := ∅ ]}.
Proof. vm_compute; reflexivity. Qed.

Example register_function_area :
  lookup_mm (register_function "shapes" 1 area_radius shapes_empty).2 "shapes" "area"
  = Some (filed (MultiMethod_init "shapes" "area") "shapes.area.1" area_radius).
Proof. vm_compute; reflexivity. Qed.

Example shapes_area_call :
  bind (decorate "shapes" 1 area_radius)
       (λ area, FunctionWrapper_call area VNone [VInt 2] []) shapes_empty
  = (inl (TypeError "register() takes 1 positional argument but 4 were given"),
     (decorate "shapes" 1 area_radius shapes_empty).2).
Proof. vm_compute; reflexivity. Qed.

(** Registry ids are joined with dots, and a namespace may hold dots: two
    triples can have one registry id. *)
Example reg_name_shared : reg_name "dl.shapes" "area" 1 = reg_name "dl" "shapes.area" 1.
Proof. reflexivity. Qed.

(** ** Default tokens *)

Lemma length_split (c : ascii) (s : string) :
  length (split c s) = S (count_char c s).
Proof.
  induction s as [|c' s IH]; simpl; [done|].
  case_decide; simpl; [by rewrite IH|].
  destruct (split c s) as [|x xs]; simpl in *; [done|]. by rewrite IH.
Qed.

Lemma split_empty_inv (c : ascii) (s : string) :
  (2 ≤ length (split c s))%nat → s ≠ "".
Proof. intros Hlen ->. simpl in Hlen. lia. Qed.

Lemma def_token_given (env : environ) (tok : string) :
  tok ≠ "" →
  def_token env (Some tok) =
    let home := expanduser env +:+ "/.datalab" in
    io_bind (io_call Eexpanduser (inr (expanduser env))) (λ _,
      if decide (4 ≤ len (split "." tok)) then io_ret tok
      else if decide (len (split "." tok) = 1) then
        readTokenFile env (home +:+ "/id_token." +:+ tok)
      else io_ret ANON_TOKEN).
Proof.
  intros Hne. unfold def_token.
  destruct (decide (Some tok = None ∨ Some tok = Some "")) as [[|[=]]|_]; done.
Qed.

(** C6. A string with at least four segments between dots, that is with at
    least three dots, is returned as it is, and nothing but the home
    directory is asked of the system. *)
Theorem def_token_token (env : environ) (tok : string) :
  (4 ≤ length (split "." tok))%nat ∨ (3 ≤ count_char "." tok)%nat →
  def_token env (Some tok) = (inr tok, [Eexpanduser]).
Proof.
  intros Hseg.
  assert (4 ≤ length (split "." tok))%nat as Hlen.
  { destruct Hseg as [|Hdots]; [done|]. rewrite length_split. lia. }
  rewrite def_token_given by (apply (split_empty_inv "."); lia).
  unfold len. destruct (decide (4 ≤ _)); [done|lia].
Qed.

Lemma def_token_token_witness :
  def_token bare_environ (Some "a.b.c.d") = (inr "a.b.c.d", [Eexpanduser]).
Proof.
  apply (def_token_token bare_environ "a.b.c.d"). left. simpl. lia.
Defined.

(** C9. A string with two or with three segments between dots gives the
    anonymous token, and nothing but the home directory is asked of the
    system: no path is tested and no file is opened. *)
Theorem def_token_two_or_three (env : environ) (tok : string) :
  length (split "." tok) = 2%nat ∨ length (split "." tok) = 3%nat →
  def_token env (Some tok) = (inr "anonymous.0.0.anon_access", [Eexpanduser]).
Proof.
  intros Hseg.
  rewrite def_token_given by (apply (split_empty_inv "."); lia).
  unfold len. destruct (decide (4 ≤ _)); [lia|].
  destruct (decide (_ = 1)); [lia|done].
Qed.

Lemma def_token_two_or_three_witness :
  def_token bare_environ (Some "user.name")
  = (inr "anonymous.0.0.anon_access", [Eexpanduser]) ∧
  def_token bare_environ (Some "a.b.c")
  = (inr "anonymous.0.0.anon_access", [Eexpanduser]).
Proof.
  split.
  - apply (def_token_two_or_three bare_environ "user.name"). by left.
  - apply (def_token_two_or_three bare_environ "a.b.c"). by right.
Defined.

(** C7. Called with [None] where neither [$HOME/.datalab/dl.conf] nor a
    token file of any user exists, [def_token] does not return the
    anonymous token in a process without a controlling terminal: the call
    of [os.getlogin()] at line 161 raises, and the error leaves
    [def_token] before a token file or its directory is looked at, where
    the docstring of the function has it default to the anonymous
    token. *)
Theorem def_token_detached :
  path_exists detached_environ "/home/user/.datalab/dl.conf" = false ∧
  (∀ user, path_exists detached_environ ("/home/user/.datalab/id_token." +:+ user)
           = false) ∧
  def_token detached_environ None
  = (inl (OSError "Inappropriate ioctl for device"),
     [Eexpanduser; Eexists "/home/user/.datalab/dl.conf"; Egetlogin]) ∧
  (def_token detached_environ None).1 ≠ inr ANON_TOKEN.
Proof. split; [done|]. split; [done|]. split; [vm_compute; reflexivity|]. by vm_compute. Qed.

(** Where the terminal has a user, and neither [$HOME/.datalab/dl.conf]
    nor the token file of that user exists, the call with [None] returns
    the anonymous token; it tests the paths of the two files and of their
    directory and opens no file. *)
Lemma def_token_anonymous (env : environ) (user : string) :
  let home := expanduser env +:+ "/.datalab" in
  let tok_file := home +:+ "/id_token." +:+ user in
  path_exists env (home +:+ "/dl.conf") = false →
  getlogin env = inr user →
  path_exists env tok_file = false →
  def_token env None
  = (inr "anonymous.0.0.anon_access",
     ([Eexpanduser; Eexists (home +:+ "/dl.conf"); Egetlogin; Eexists home]
      ++ if path_exists env home then [Eexists tok_file] else [])%list).
Proof.
  intros home tok_file Hconf Hlogin Htok. subst home tok_file. unfold def_token.
  destruct (decide (None = None ∨ None = Some "")) as [_|[]]; [|by left].
  simpl. rewrite Hconf, Hlogin. simpl.
  destruct (path_exists env (expanduser env +:+ "/.datalab")); simpl; [|done].
  by rewrite Htok.
Qed.

Lemma def_token_anonymous_witness :
  def_token bare_environ None
  = (inr "anonymous.0.0.anon_access",
     [Eexpanduser; Eexists "/home/user/.datalab/dl.conf"; Egetlogin;
      Eexists "/home/user/.datalab"]).
Proof.
  exact (def_token_anonymous bare_environ "user" eq_refl eq_refl eq_refl).
Defined.

(** C10. The empty string is treated as [None] is: in every environment
    the two calls ask the same of the system, in the same order, and end
    the same way. *)
Theorem def_token_empty_string (env : environ) :
  def_token env (Some "") = def_token env None.
Proof.
  unfold def_token.
  destruct (decide (Some "" = None ∨ Some "" = Some "")) as [_|[]]; [|by right].
  destruct (decide (None = None ∨ None = Some "")) as [_|[]]; [|by left].
  done.
Qed.

(** Without a controlling terminal the call with [None] raises where there
    is no [dl.conf]. *)
Lemma def_token_getlogin_raises (env : environ) (e : exception) :
  path_exists env ((expanduser env +:+ "/.datalab") +:+ "/dl.conf") = false →
  getlogin env = inl e →
  (def_token env None).1 = inl e.
Proof.
  intros Hconf Hlogin. unfold def_token.
  destruct (decide (None = None ∨ None = Some "")) as [_|[]]; [|by left].
  simpl. by rewrite Hconf, Hlogin.
Qed.

(** ** Multipart form data *)

(** C8. For the field [FIELD] with value [VALUE], the file [FILE] named
    [F.TXT] with content [CONTENT] and the boundary [BOUNDARY], where the
    library guesses [text/plain] for [F.TXT], the body has 193 characters
    and the headers are [Content-Type] with
    [multipart/form-data; boundary=BOUNDARY] and [Content-Length] with
    [193]. *)
Theorem encode_multipart_example (guess_type : string → option string)
    (random_index : nat → nat) :
  guess_type "F.TXT" = Some "text/plain" →
  let result :=
    encode_multipart guess_type random_index [("FIELD", FStr "VALUE")]
      [("FILE", {| filename := "F.TXT"; content := "CONTENT"; mimetype := None |})]
      (Some "BOUNDARY") in
  String.length result.1 = 193%nat ∧
  result.2 !! "Content-Type" = Some "multipart/form-data; boundary=BOUNDARY" ∧
  result.2 !! "Content-Length" = Some "193" ∧
  result.2 = {[ "Content-Type" := "multipart/form-data; boundary=BOUNDARY";
                "Content-Length" := "193" ]}.
Proof.
  intros Hguess result. subst result.
  unfold encode_multipart, file_lines. simpl. rewrite Hguess.
  split_and!; vm_compute; reflexivity.
Qed.

Lemma encode_multipart_example_witness :
  let result :=
    encode_multipart guess_text (λ _, 0%nat) [("FIELD", FStr "VALUE")]
      [("FILE", {| filename := "F.TXT"; content := "CONTENT"; mimetype := None |})]
      (Some "BOUNDARY") in
  String.length result.1 = 193%nat ∧
  result.2 !! "Content-Type" = Some "multipart/form-data; boundary=BOUNDARY" ∧
  result.2 !! "Content-Length" = Some "193" ∧
  result.2 = {[ "Content-Type" := "multipart/form-data; boundary=BOUNDARY";
                "Content-Length" := "193" ]}.
Proof.
  exact (encode_multipart_example guess_text (λ _, 0%nat) eq_refl).
Defined.

(** ** The three parts on concrete inputs *)

Example reg_name_area : reg_name "shapes" "area" 2 = "shapes.area.2".
Proof. reflexivity. Qed.

Example str_negative : str (-7) = "-7".
Proof. reflexivity. Qed.

Example split_token : split "." "a.b.c.d" = ["a"; "b"; "c"; "d"].
Proof. reflexivity. Qed.

Example split_trailing : split "." "a.." = ["a"; ""; ""].
Proof. reflexivity. Qed.

Example split_empty : split "." "" = [""].
Proof. reflexivity. Qed.

Example def_token_logged_in :
  def_token alice_environ None
  = (inr "alice.42.42.secret",
     [Eexpanduser; Eexists "/home/alice/.datalab/dl.conf";
      Econfig_read "/home/alice/.datalab/dl.conf";
      Econfig_get "login" "status"; Econfig_get "login" "user";
      Eexists "/home/alice/.datalab/id_token.alice";
      Eopen "/home/alice/.datalab/id_token.alice"]).
Proof. by vm_compute. Qed.

Example def_token_user_name :
  def_token alice_environ (Some "bob")
  = (inr "anonymous.0.0.anon_access",
     [Eexpanduser; Eexists "/home/alice/.datalab/id_token.bob"]).
Proof. by vm_compute. Qed.

Example escape_quote_example :
  escape_quote ("a" +:+ String quote "b") = "a" +:+ String backslash (String quote "b").
Proof. reflexivity. Qed.

Example encode_multipart_body :
  (encode_multipart guess_text (λ _, 0%nat) [("FIELD", FStr "VALUE")]
     [("FILE", {| filename := "F.TXT"; content := "CONTENT"; mimetype := None |})]
     (Some "BOUNDARY")).1
  = join CRLF
      [ "--BOUNDARY";
        "Content-Disposition: form-data; name=" +:+ String quote ("FIELD" +:+ String quote "");
        "";
        "VALUE";
        "--BOUNDARY";
        "Content-Disposition: form-data; name=" +:+ String quote ("FILE" +:+ String quote
          ("; filename=" +:+ String quote ("F.TXT" +:+ String quote "")));
        "Content-Type: text/plain";
        "";
        "CONTENT";
        "--BOUNDARY--";
        "" ].
Proof. by vm_compute. Qed.

Example encode_multipart_octet_stream :
  String.length
    (encode_multipart (λ _, None) (λ _, 0%nat) [("FIELD", FStr "VALUE")]
       [("FILE", {| filename := "F.TXT"; content := "CONTENT"; mimetype := None |})]
       (Some "BOUNDARY")).1 = 207%nat.
Proof. by vm_compute. Qed.

(** * Further properties of the registry *)

Section registry_more.
Context {value world : Type}.
Variable apply : pyfunction → value → list value → kwargs value → M world value.
Implicit Types (s : state world) (mm : MultiMethod) (L : list entry).


(** X2. A decoration files nothing: every namespace and method name has
    the instance it had, or none as before, the registry holds the
    entries it held, and the rest of the state is as it was; the one
    change is the dict that the namespace has from then on. *)
Theorem decorate_files_nothing s module nargs function :
  (∀ m n, lookup_mm (decorate module nargs function s).2 m n = lookup_mm s m n) ∧
  (∀ m n a e, e ∈ overload_entries (decorate module nargs function s).2 m n a
              ↔ e ∈ overload_entries s m n a) ∧
  globals (decorate module nargs function s).2 = globals s ∧
  dom (method_registry (decorate module nargs function s).2)
  = {[module]} ∪ dom (method_registry s).
Proof.
  assert ((decorate module nargs function s).2 = (multimethod module nargs s).2)
    as -> by done.
  destruct (multimethod module nargs s) as [r s'] eqn:Hrun. cbn [snd].
  pose proof Hrun as (_ & Hglob & _ & _ & Hsame)%multimethod_run.
  split; [done|]. split; [|split; [done|]].
  - intros m n a [loc f]. rewrite !elem_of_overload_entries.
    by setoid_rewrite Hsame.
  - unfold multimethod in Hrun. injection Hrun as _ <-. simpl.
    case_decide as Hin.
    + symmetry. apply subseteq_union_1_L. by apply singleton_subseteq_l.
    + by rewrite dom_insert_L.
Qed.

Lemma step_methodmap (x y : state world * MultiMethod) key f :
  step apply x y →
  self_methodmap x.2 !! key = Some f → self_methodmap y.2 !! key = Some f.
Proof.
  intros [s self module nargs r s' Hrun
         |s self module nargs function r s' Hrun
         |s self wrapper instance args kw r s' Hrun
         |s self nargs function module self' Hrun
         |s self nargs function module e Hrun
         |s self instance args kw r s' Hrun
         |s self g instance args kw r s' Hrun]; simpl; try done.
  intros Hkey. unfold MultiMethod_register in Hrun.
  destruct (self_methodmap self !! reg_name _ _ _) eqn:Hnew; [done|].
  injection Hrun as <-. simpl. rewrite lookup_insert_ne; [done|].
  intros <-. congruence.
Qed.

Lemma steps_methodmap (x y : state world * MultiMethod) key f :
  rtc (step apply) x y →
  self_methodmap x.2 !! key = Some f → self_methodmap y.2 !! key = Some f.
Proof.
  induction 1 as [|x y z Hstep _ IH]; [done|].
  intros Hkey. apply IH. by eapply step_methodmap.
Qed.

(** X3. What is on file stays on file: along any sequence of calls of
    [multimethod], of the [register] it returns, of wrappers, of
    [MultiMethod.register], of the instance and of getters, returning or
    raising, a callable that the instance has under a registry id is
    neither removed nor replaced. *)
Theorem registered_forever s self s' self' key f :
  rtc (step apply) (s, self) (s', self') →
  self_methodmap self !! key = Some f →
  self_methodmap self' !! key = Some f.
Proof. intros Hsteps. exact (steps_methodmap (s, self) (s', self') key f Hsteps). Qed.

(** [multimethod(module, nargs)] by itself only makes sure that the
    module has its dict: the keys of [method_registry] are those it had
    and [module], every namespace and name has the instance it had, and a
    second call for the module changes nothing. *)
Lemma multimethod_alone s module nargs nargs' :
  let s1 := (multimethod module nargs s).2 in
  dom (method_registry s1) = {[module]} ∪ dom (method_registry s) ∧
  (∀ m n, lookup_mm s1 m n = lookup_mm s m n) ∧
  (multimethod module nargs' s1).2 = s1.
Proof.
  unfold multimethod. simpl. case_decide as Hin; simpl.
  - split; [|split; [done|by rewrite decide_True]].
    symmetry. apply subseteq_union_1_L. by apply singleton_subseteq_l.
  - split; [by rewrite dom_insert_L|]. split.
    + intros m n. unfold lookup_mm. simpl.
      destruct (decide (m = module)) as [->|Hm].
      * rewrite lookup_insert_eq. simpl. rewrite lookup_empty.
        apply not_elem_of_dom in Hin. by rewrite Hin.
      * by rewrite lookup_insert_ne.
    + rewrite decide_True; [done|]. rewrite dom_insert_L.
      apply elem_of_union_l. by apply elem_of_singleton.
Qed.
End registry_more.

Section instances.
Context {value world : Type}.
Variable apply : pyfunction → value → list value → kwargs value → M world value.
Implicit Types (s : state world) (mm : MultiMethod) (L : list entry).

(** X4. Registering with an instance a function of the instance's name,
    for the instance's module, makes the instance pass calls with [nargs]
    positional arguments to that function; calls with another number of
    positional arguments go where they went before. *)
Theorem register_then_call self self' nargs function instance args kw s :
  __name__ function = self_name self →
  MultiMethod_register self nargs function (self_module self) = inr self' →
  MultiMethod_call apply self' instance args kw s =
    if decide (len args = nargs) then apply function instance args kw s
    else MultiMethod_call apply self instance args kw s.
Proof.
  intros Hname. unfold MultiMethod_register. rewrite Hname.
  destruct (self_methodmap self !! _) eqn:Hkey; [done|]. intros [= <-].
  unfold MultiMethod_call. simpl. case_decide as Hlen.
  - by rewrite Hlen, lookup_insert_eq.
  - by rewrite lookup_insert_ne by (intros ?%reg_name_inj; done).
Qed.


(** X6. In any history from the empty registry and a new instance, where
    callables leave the registry alone, no namespace and method name has
    an instance in the registry, so that no getter has an instance to
    call, and the attribute [__lastreg__] of line 92 is never set. *)
Theorem registry_stays_bare L s self :
  registry_frame apply →
  reachable apply L s self →
  (∀ module name, lookup_mm s module name = None) ∧
  (∀ g instance args kw, getter_call apply g instance args kw s = None) ∧
  self_lastreg self = None.
Proof.
  intros Hframe Hreach.
  pose proof (reachable_bare apply Hframe L s self Hreach) as Hbare.
  destruct (reachable_instance apply L s self Hreach) as (_ & _ & _ & Hlast).
  split; [done|]. split; [|done].
  intros [m n] instance args kw. unfold getter_call. simpl.
  fold (lookup_mm s m n). by rewrite Hbare.
Qed.
End instances.

(** * Further properties of the tokens *)

(** ** Strings as lists of characters *)

Lemma list_ascii_app (s1 s2 : string) :
  list_ascii_of_string (s1 +:+ s2)
  = (list_ascii_of_string s1 ++ list_ascii_of_string s2)%list.
Proof. induction s1 as [|c s1 IH]; simpl; [done|]. by rewrite <-IH. Qed.

Lemma list_ascii_rev_app (s1 s2 : string) :
  list_ascii_of_string (String.rev_app s1 s2)
  = (reverse (list_ascii_of_string s1) ++ list_ascii_of_string s2)%list.
Proof.
  revert s2. induction s1 as [|c s1 IH]; intros s2; simpl; [done|].
  rewrite IH, reverse_cons. simpl. by rewrite <-(assoc_L (++)).
Qed.

Lemma list_ascii_rev (s : string) :
  list_ascii_of_string (String.rev s) = reverse (list_ascii_of_string s).
Proof. unfold String.rev. rewrite list_ascii_rev_app. simpl. apply app_nil_r. Qed.

Lemma list_ascii_inj (s1 s2 : string) :
  list_ascii_of_string s1 = list_ascii_of_string s2 → s1 = s2.
Proof.
  intros H. rewrite <-(string_of_list_ascii_of_string s1),
    <-(string_of_list_ascii_of_string s2). by rewrite H.
Qed.

Lemma list_ascii_length (s : string) :
  length (list_ascii_of_string s) = String.length s.
Proof. induction s; simpl; by f_equal. Qed.

(** ** What [strip] and [read] leave *)

Lemma lstrip_newline_spec (s : string) :
  ∃ pre, s = pre +:+ lstrip_newline s ∧
         Forall (λ c, c = newline) (list_ascii_of_string pre) ∧
         head (list_ascii_of_string (lstrip_newline s)) ≠ Some newline.
Proof.
  induction s as [|c s (pre & Hs & Hpre & Hhead)]; simpl.
  - exists "". by repeat split.
  - case_decide as Hc.
    + exists (String c pre). split; [|split; [by constructor|done]].
      change (String c s = String c (pre +:+ lstrip_newline s)). by f_equal.
    + exists "". simpl. split; [done|]. split; [constructor|]. by intros [= ->].
Qed.

Lemma strip_newline_spec (s : string) :
  ∃ pre post, s = pre +:+ strip_newline s +:+ post ∧
    Forall (λ c, c = newline) (list_ascii_of_string pre) ∧
    Forall (λ c, c = newline) (list_ascii_of_string post) ∧
    head (list_ascii_of_string (strip_newline s)) ≠ Some newline ∧
    last (list_ascii_of_string (strip_newline s)) ≠ Some newline.
Proof.
  unfold strip_newline.
  destruct (lstrip_newline_spec s) as (pre & Hs & Hpre & Hhead).
  set (t := lstrip_newline s) in *.
  destruct (lstrip_newline_spec (String.rev t)) as (pre' & Ht & Hpre' & Hhead').
  set (u := lstrip_newline (String.rev t)) in *.
  assert (t = String.rev u +:+ String.rev pre') as Htu.
  { apply list_ascii_inj. rewrite list_ascii_app, !list_ascii_rev.
    rewrite <-reverse_app, <-list_ascii_app, <-Ht, list_ascii_rev.
    by rewrite reverse_involutive. }
  exists pre, (String.rev pre'). split; [by rewrite <-Htu|]. split; [done|].
  split; [|split].
  - rewrite list_ascii_rev. by apply Forall_reverse.
  - rewrite Htu, list_ascii_app in Hhead.
    destruct (list_ascii_of_string (String.rev u)) as [|c l]; [by simpl|done].
  - by rewrite list_ascii_rev, last_reverse.
Qed.

Lemma read_length (n : nat) (s : string) : (String.length (read n s) ≤ n)%nat.
Proof.
  revert s. induction n as [|n IH]; intros [|c s]; simpl; try lia.
  specialize (IH s). lia.
Qed.

Lemma read_rest (n : nat) (s : string) :
  ∃ rest, s = read n s +:+ rest ∧ (rest = "" ∨ String.length (read n s) = n).
Proof.
  revert s. induction n as [|n IH]; intros [|c s]; simpl.
  - exists "". auto.
  - exists (String c s). auto.
  - exists "". auto.
  - destruct (IH s) as (rest & Hrest & Hlen). exists rest. split.
    + change (String c s = String c (read n s +:+ rest)). by f_equal.
    + destruct Hlen as [Hlen|Hlen]; [by left|right; by rewrite Hlen].
Qed.

(** X7. Where the token file exists and opens, [readTokenFile] returns
    what the first 128 characters of the file, or the whole file where it
    is shorter, hold between the newlines at their two ends: a token of
    at most 128 characters that neither begins nor ends with a newline. *)
Theorem readTokenFile_token (env : environ) (tok_file text : string) :
  path_exists env tok_file = true →
  open_read env tok_file = inr text →
  ∃ tok pre post rest,
    readTokenFile env tok_file = (inr tok, [Eexists tok_file; Eopen tok_file]) ∧
    text = (pre +:+ tok +:+ post) +:+ rest ∧
    (String.length (pre +:+ tok +:+ post) ≤ 128)%nat ∧
    (rest = "" ∨ String.length (pre +:+ tok +:+ post) = 128%nat) ∧
    Forall (λ c, c = newline) (list_ascii_of_string pre) ∧
    Forall (λ c, c = newline) (list_ascii_of_string post) ∧
    head (list_ascii_of_string tok) ≠ Some newline ∧
    last (list_ascii_of_string tok) ≠ Some newline.
Proof.
  intros Hexists Hopen. unfold readTokenFile. rewrite Hexists, Hopen. simpl.
  destruct (strip_newline_spec (read 128 text)) as (pre & post & Hs & Hpre & Hpost & Hh & Hl).
  destruct (read_rest 128 text) as (rest & Hrest & Hlen).
  exists (strip_newline (read 128 text)), pre, post, rest.
  split; [done|]. rewrite <-Hs. split; [done|]. split; [apply read_length|done].
Qed.

(** ** The ways [def_token] ends *)

Lemma readTokenFile_cases (env : environ) (tok_file : string) :
  (path_exists env tok_file = false ∧
   readTokenFile env tok_file = (inr ANON_TOKEN, [Eexists tok_file])) ∨
  (path_exists env tok_file = true ∧
   ∃ e, open_read env tok_file = inl e ∧
        readTokenFile env tok_file = (inl e, [Eexists tok_file; Eopen tok_file])) ∨
  (path_exists env tok_file = true ∧
   ∃ text, open_read env tok_file = inr text ∧
           readTokenFile env tok_file
           = (inr (strip_newline (read 128 text)), [Eexists tok_file; Eopen tok_file])).
Proof.
  unfold readTokenFile. destruct (path_exists env tok_file); simpl; [|by left].
  right. destruct (open_read env tok_file) as [e|text]; simpl.
  - left. split; [done|]. by exists e.
  - right. split; [done|]. by exists text.
Qed.

Lemma def_token_absent (env : environ) (tok : option string) :
  tok = None ∨ tok = Some "" →
  def_token env tok =
    let home := expanduser env +:+ "/.datalab" in
    io_bind (io_call Eexpanduser (inr (expanduser env))) (λ _,
      io_bind (io_call (Eexists (home +:+ "/dl.conf"))
                       (inr (path_exists env (home +:+ "/dl.conf")))) (λ have_conf,
        if (have_conf : bool) then
          io_bind (io_call (Econfig_read (home +:+ "/dl.conf"))
                           (config_read env (home +:+ "/dl.conf"))) (λ _,
            io_bind (io_call (Econfig_get "login" "status")
                             (config_get env (home +:+ "/dl.conf") "login" "status"))
              (λ _status,
                if decide (_status = Some "loggedin") then
                  io_bind (io_call (Econfig_get "login" "user")
                                   (config_get env (home +:+ "/dl.conf") "login" "user"))
                    (λ _user, readTokenFile env (home +:+ "/id_token." +:+ fmt_s _user))
                else io_ret ANON_TOKEN))
        else
          io_bind (io_call Egetlogin (getlogin env)) (λ login,
            io_bind (io_call (Eexists home) (inr (path_exists env home))) (λ have_home,
              if negb have_home then io_ret ANON_TOKEN
              else
                io_bind (io_call (Eexists (home +:+ "/id_token." +:+ login))
                           (inr (path_exists env (home +:+ "/id_token." +:+ login))))
                  (λ have_tok,
                    if negb have_tok then io_ret ANON_TOKEN
                    else readTokenFile env (home +:+ "/id_token." +:+ login)))))).
Proof.
  intros Htok. unfold def_token.
  destruct (decide (tok = None ∨ tok = Some "")) as [_|[]]; done.
Qed.

(** X8. A string without a dot is taken for a user name: where that user
    has no token file the anonymous token is returned after the one test
    of the path, and where the file exists and opens, what [readTokenFile]
    makes of it. Only [$HOME/.datalab/id_token.<name>] is touched. *)
Theorem def_token_user_name_file (env : environ) (tok : string) :
  tok ≠ "" →
  count_char "." tok = 0%nat →
  let tok_file := (expanduser env +:+ "/.datalab") +:+ "/id_token." +:+ tok in
  def_token env (Some tok) =
    if path_exists env tok_file then
      match open_read env tok_file with
      | inr text => (inr (strip_newline (read 128 text)),
                     [Eexpanduser; Eexists tok_file; Eopen tok_file])
      | inl e => (inl e, [Eexpanduser; Eexists tok_file; Eopen tok_file])
      end
    else (inr "anonymous.0.0.anon_access", [Eexpanduser; Eexists tok_file]).
Proof.
  intros Hne Hdots tok_file. rewrite def_token_given by done.
  pose proof (length_split "." tok) as Hlen. rewrite Hdots in Hlen.
  unfold len. rewrite Hlen.
  destruct (decide (4 ≤ _)) as [?|_]; [lia|].
  destruct (decide (_ = 1)) as [_|?]; [|lia].
  fold tok_file. unfold readTokenFile.
  destruct (path_exists env tok_file); simpl; [|done].
  by destruct (open_read env tok_file).
Qed.

(** X9. Whatever it is given, what [def_token] returns is the anonymous
    token, or the string it was given, which then has four segments or
    more, or what [readTokenFile] makes of an existing file
    [$HOME/.datalab/id_token.<user>]. *)
Theorem def_token_returns (env : environ) (tok : option string) (r : string) :
  (def_token env tok).1 = inr r →
  r = "anonymous.0.0.anon_access" ∨
  (tok = Some r ∧ (4 ≤ length (split "." r))%nat) ∨
  ∃ user text,
    let tok_file := (expanduser env +:+ "/.datalab") +:+ "/id_token." +:+ user in
    path_exists env tok_file = true ∧
    open_read env tok_file = inr text ∧
    r = strip_newline (read 128 text).
Proof.
  assert (∀ user, (readTokenFile env ((expanduser env +:+ "/.datalab")
                     +:+ "/id_token." +:+ user)).1 = inr r →
            r = "anonymous.0.0.anon_access" ∨
            (tok = Some r ∧ (4 ≤ length (split "." r))%nat) ∨
            ∃ user text,
              path_exists env ((expanduser env +:+ "/.datalab")
                                 +:+ "/id_token." +:+ user) = true ∧
              open_read env ((expanduser env +:+ "/.datalab")
                               +:+ "/id_token." +:+ user) = inr text ∧
              r = strip_newline (read 128 text)) as Hfile.
  { intros user Hr.
    destruct (readTokenFile_cases env ((expanduser env +:+ "/.datalab")
                +:+ "/id_token." +:+ user))
      as [[_ Heq]|[(_ & e & _ & Heq)|(Hex & text & Hopen & Heq)]];
      rewrite Heq in Hr; simpl in Hr; simplify_eq.
    - by left.
    - right. right. by exists user, text. }
  destruct (decide (tok = None ∨ tok = Some "")) as [Habsent|Hgiven].
  - rewrite def_token_absent by done. simpl.
    destruct (path_exists env (_ +:+ "/dl.conf")); simpl.
    + destruct (config_read env _) as [e|[]]; simpl; [done|].
      destruct (config_get env _ "login" "status") as [e|status]; simpl; [done|].
      case_decide; simpl.
      * destruct (config_get env _ "login" "user") as [e|user]; simpl; [done|].
        destruct (readTokenFile env _) as [x t] eqn:Hread. simpl.
        intros ->. apply (Hfile (fmt_s user)). by rewrite Hread.
      * intros [= <-]. by left.
    + destruct (getlogin env) as [e|login]; simpl; [done|].
      destruct (path_exists env (expanduser env +:+ "/.datalab")); simpl.
      * destruct (path_exists env (_ +:+ "/id_token." +:+ login)); simpl.
        -- destruct (readTokenFile env _) as [x t] eqn:Hread. simpl.
           intros ->. apply (Hfile login). by rewrite Hread.
        -- intros [= <-]. by left.
      * intros [= <-]. by left.
  - destruct tok as [tok|]; [|by destruct Hgiven; left].
    rewrite def_token_given by (intros ->; apply Hgiven; by right). simpl.
    case_decide as H4; simpl.
    + intros [= <-]. right. left. split; [done|]. unfold len in H4. lia.
    + case_decide; simpl.
      * destruct (readTokenFile env _) as [x t] eqn:Hread. simpl.
        intros ->. apply (Hfile tok). by rewrite Hread.
      * intros [= <-]. by left.
Qed.

(** X10. An error out of [def_token] is an error of one of the calls it
    makes: of [os.getlogin()], of reading or querying [dl.conf], or of
    opening a token file that exists. Given a string that is not empty,
    only the last can happen, and only for a string without a dot. *)
Theorem def_token_raises (env : environ) (tok : option string) (e : exception) :
  let home := expanduser env +:+ "/.datalab" in
  (def_token env tok).1 = inl e →
  ((tok = None ∨ tok = Some "") ∧
   (getlogin env = inl e ∨
    config_read env (home +:+ "/dl.conf") = inl e ∨
    config_get env (home +:+ "/dl.conf") "login" "status" = inl e ∨
    config_get env (home +:+ "/dl.conf") "login" "user" = inl e)) ∨
  ∃ user,
    ((tok = None ∨ tok = Some "") ∨ (tok = Some user ∧ count_char "." user = 0%nat)) ∧
    path_exists env (home +:+ "/id_token." +:+ user) = true ∧
    open_read env (home +:+ "/id_token." +:+ user) = inl e.
Proof.
  intros home.
  assert (∀ user, (readTokenFile env (home +:+ "/id_token." +:+ user)).1 = inl e →
            path_exists env (home +:+ "/id_token." +:+ user) = true ∧
            open_read env (home +:+ "/id_token." +:+ user) = inl e) as Hfile.
  { intros user Hr.
    destruct (readTokenFile_cases env (home +:+ "/id_token." +:+ user))
      as [[_ Heq]|[(Hex & e' & Hopen & Heq)|(_ & text & _ & Heq)]];
      rewrite Heq in Hr; simpl in Hr; by simplify_eq. }
  destruct (decide (tok = None ∨ tok = Some "")) as [Habsent|Hgiven].
  - rewrite def_token_absent by done. simpl. fold home.
    destruct (path_exists env (home +:+ "/dl.conf")); simpl.
    + destruct (config_read env _) as [e'|[]] eqn:Hread; simpl.
      { intros [= ->]. left. auto. }
      destruct (config_get env _ "login" "status") as [e'|status] eqn:Hstatus; simpl.
      { intros [= ->]. left. auto. }
      case_decide; simpl; [|done].
      destruct (config_get env _ "login" "user") as [e'|user] eqn:Huser; simpl.
      { intros [= ->]. left. auto 6. }
      destruct (readTokenFile env _) as [x t] eqn:Hrd. simpl. intros ->.
      right. exists (fmt_s user). split; [by left|]. apply Hfile. by rewrite Hrd.
    + destruct (getlogin env) as [e'|login] eqn:Hlogin; simpl.
      { intros [= ->]. left. auto. }
      destruct (path_exists env home); simpl; [|done].
      destruct (path_exists env (home +:+ "/id_token." +:+ login)); simpl; [|done].
      destruct (readTokenFile env _) as [x t] eqn:Hrd. simpl. intros ->.
      right. exists login. split; [by left|]. apply Hfile. by rewrite Hrd.
  - destruct tok as [tok|]; [|by destruct Hgiven; left].
    rewrite def_token_given by (intros ->; apply Hgiven; by right). simpl. fold home.
    case_decide as H4; simpl; [done|].
    case_decide as H1; simpl; [|done].
    destruct (readTokenFile env _) as [x t] eqn:Hrd. simpl. intros ->.
    right. exists tok. split.
    + right. split; [done|]. unfold len in H1. rewrite length_split in H1. lia.
    + apply Hfile. by rewrite Hrd.
Qed.

Lemma not_in_events (ev : event) (t : list event) :
  Forall (λ ev', ev' ≠ ev) t → ev ∉ t.
Proof. intros Hall Hin. by eapply Forall_forall in Hall. Qed.

(** X11. Where [dl.conf] exists, a call without a token never asks
    [os.getlogin()], and where the file reads and gives a status other
    than [loggedin], the anonymous token is returned without a look at
    any token file. *)
Theorem def_token_with_conf (env : environ) (tok : option string) :
  let conf := (expanduser env +:+ "/.datalab") +:+ "/dl.conf" in
  tok = None ∨ tok = Some "" →
  path_exists env conf = true →
  (Egetlogin ∉ (def_token env tok).2) ∧
  (∀ status, config_read env conf = inr () →
     config_get env conf "login" "status" = inr status →
     status ≠ Some "loggedin" →
     def_token env tok
     = (inr "anonymous.0.0.anon_access",
        [Eexpanduser; Eexists conf; Econfig_read conf; Econfig_get "login" "status"])).
Proof.
  intros conf Htok Hconf. rewrite def_token_absent by done. simpl. fold conf.
  rewrite Hconf. simpl. split.
  - apply not_in_events.
    destruct (config_read env conf) as [e|[]]; simpl;
      [by repeat constructor|].
    destruct (config_get env conf "login" "status") as [e|status]; simpl;
      [by repeat constructor|].
    case_decide; simpl; [|by repeat constructor].
    destruct (config_get env conf "login" "user") as [e|user]; simpl;
      [by repeat constructor|].
    destruct (readTokenFile_cases env ((expanduser env +:+ "/.datalab")
                +:+ "/id_token." +:+ fmt_s user))
      as [[_ ->]|[(_ & e & _ & ->)|(_ & text & _ & ->)]]; simpl;
      by repeat constructor.
  - intros status -> -> Hstatus. simpl. by rewrite decide_False.
Qed.

(** X12. Where there is no [dl.conf] and [os.getlogin()] raises, a call
    without a token raises that error, before any token file or its
    directory is looked at. *)
Theorem def_token_no_terminal (env : environ) (tok : option string) (e : exception) :
  let conf := (expanduser env +:+ "/.datalab") +:+ "/dl.conf" in
  tok = None ∨ tok = Some "" →
  path_exists env conf = false →
  getlogin env = inl e →
  def_token env tok = (inl e, [Eexpanduser; Eexists conf; Egetlogin]).
Proof.
  intros conf Htok Hconf Hlogin. rewrite def_token_absent by done. simpl.
  fold conf. by rewrite Hconf, Hlogin.
Qed.

(** * Further properties of the multipart encoder *)

(** ** Escaped quotes *)

Lemma escape_quote_head (s : string) : String.get 0 (escape_quote s) ≠ Some quote.
Proof.
  destruct s as [|c s]; simpl; [done|].
  case_decide; simpl; [done|]. by intros [= ->].
Qed.

(** X13. In an escaped string no quote stands at the start and every quote
    has a backslash right before it. *)
Theorem escape_quote_no_bare_quote (s : string) (i : nat) :
  String.get i (escape_quote s) = Some quote →
  ∃ j, i = S j ∧ String.get j (escape_quote s) = Some backslash.
Proof.
  revert i. induction s as [|c s IH]; intros i; simpl.
  - by destruct i.
  - case_decide as Hc; simpl.
    + destruct i as [|[|k]]; simpl; [done|..].
      * intros _. by exists 0%nat.
      * intros (j & -> & Hj)%IH. by exists (S (S j)).
    + destruct i as [|k]; simpl.
      * by intros [= ->].
      * intros (j & -> & Hj)%IH. by exists (S j).
Qed.

(** X14. Escaping loses nothing: two strings with the same escaped form are
    the same string. *)
Theorem escape_quote_inj (s1 s2 : string) :
  escape_quote s1 = escape_quote s2 → s1 = s2.
Proof.
  revert s2. induction s1 as [|c1 s1 IH]; intros [|c2 s2]; simpl; try done.
  - by case_decide.
  - by case_decide.
  - destruct (decide (c1 = quote)) as [->|H1], (decide (c2 = quote)) as [->|H2].
    + intros [= Heq]. f_equal. by apply IH.
    + intros [= <- Heq]. pose proof (escape_quote_head s2) as Hhead.
      rewrite <-Heq in Hhead. by simpl in Hhead.
    + intros [= -> Heq]. pose proof (escape_quote_head s1) as Hhead.
      rewrite Heq in Hhead. by simpl in Hhead.
    + intros [= -> Heq]. f_equal. by apply IH.
Qed.

(** X15. An escaped string is longer than the string by the number of its
    quotes, and it is the string itself exactly when the string has no
    quote. *)
Theorem escape_quote_length (s : string) :
  String.length (escape_quote s) = (String.length s + count_char quote s)%nat ∧
  (escape_quote s = s ↔ count_char quote s = 0%nat).
Proof.
  assert (String.length (escape_quote s)
          = (String.length s + count_char quote s)%nat) as Hlen.
  { induction s as [|c s IH]; simpl; [done|].
    case_decide; simpl; rewrite IH; lia. }
  split; [done|]. split.
  - intros Heq. rewrite Heq in Hlen. lia.
  - clear Hlen. induction s as [|c s IH]; simpl; [done|].
    case_decide; simpl; [done|]. intros Hc. f_equal. by apply IH.
Qed.

(** ** The body *)

Lemma join_terminated (lines : list string) :
  join CRLF (lines ++ [""]) = terminated lines.
Proof.
  induction lines as [|l lines IH]; simpl; [done|].
  rewrite <-IH. by destruct lines.
Qed.

Lemma terminated_app (l1 l2 : list string) :
  terminated (l1 ++ l2) = terminated l1 +:+ terminated l2.
Proof.
  induction l1 as [|l l1 IH]; simpl; [done|].
  rewrite IH. apply list_ascii_inj. rewrite !list_ascii_app.
  by rewrite <-!(assoc_L (++)).
Qed.

Lemma terminated_singleton (l : string) : terminated [l] = l +:+ CRLF.
Proof.
  unfold terminated. simpl. apply list_ascii_inj. by rewrite !list_ascii_app.
Qed.

Lemma string_get_Some (n : nat) (s : string) :
  (n < String.length s)%nat →
  ∃ c, String.get n s = Some c ∧ c ∈ list_ascii_of_string s.
Proof.
  revert n. induction s as [|c s IH]; intros n; simpl; [lia|].
  destruct n as [|n]; intros Hn.
  - exists c. split; [done|]. by left.
  - destruct (IH n) as (c' & Hget & Hin); [lia|].
    exists c'. split; [done|]. by right.
Qed.

Section body.
Variable guess_type : string → option string.
Variable random_index : nat → nat.

(** The lines of all parts, fields first, for a boundary. *)
Lemma encode_multipart_lines fields files (boundary : string) :
  (encode_multipart guess_type random_index fields files (Some boundary)).1
  = terminated (List.concat (List.map (field_lines boundary) fields)
                ++ List.concat (List.map (file_lines guess_type boundary) files)
                ++ ["--" +:+ boundary +:+ "--"]).
Proof.
  unfold encode_multipart. simpl. rewrite <-join_terminated.
  by rewrite <-!(assoc_L (++)).
Qed.

(** X16. The body is made of whole lines: every line of every part, and
    the closing delimiter after them, is followed by CRLF. Fields come
    before files, each in the order of its dict; with no field and no file
    the body is the closing delimiter alone, and every body begins with
    the delimiter of its boundary. *)
Theorem encode_multipart_terminated fields files (boundary : string) :
  let body := (encode_multipart guess_type random_index fields files
                 (Some boundary)).1 in
  body = terminated (List.concat (List.map (field_lines boundary) fields))
         +:+ terminated (List.concat (List.map (file_lines guess_type boundary) files))
         +:+ ("--" +:+ boundary +:+ "--") +:+ CRLF ∧
  ∃ rest, body = ("--" +:+ boundary) +:+ rest.
Proof.
  intros body. subst body. rewrite encode_multipart_lines. split.
  - by rewrite !terminated_app, terminated_singleton.
  - destruct fields as [|[name value] fields]; simpl.
    + destruct files as [|[name value] files]; simpl.
      * exists ("--" +:+ CRLF +:+ "").
        apply list_ascii_inj. rewrite !list_ascii_app.
        by rewrite <-!(assoc_L (++)).
      * by eexists.
    + by eexists.
Qed.

(** X17. Without a boundary given, the encoder works as with a boundary
    of thirty characters, each a digit or a letter: the one that the
    thirty draws of [random.choice] spell. *)
Theorem encode_multipart_random_boundary fields files :
  ∃ boundary,
    String.length boundary = 30%nat ∧
    Forall (λ c, c ∈ list_ascii_of_string _BOUNDARY_CHARS)
           (list_ascii_of_string boundary) ∧
    encode_multipart guess_type random_index fields files None
    = encode_multipart guess_type random_index fields files (Some boundary).
Proof.
  exists (string_of_list_ascii
            (List.map (random_choice random_index _BOUNDARY_CHARS) (seq 0 30))).
  split; [|split; [|done]].
  - rewrite <-list_ascii_length, list_ascii_of_string_of_list_ascii.
    by rewrite length_map, length_seq.
  - rewrite list_ascii_of_string_of_list_ascii. apply Forall_map, Forall_forall.
    intros i _. unfold random_choice.
    destruct (string_get_Some (random_index i mod String.length _BOUNDARY_CHARS)
                _BOUNDARY_CHARS) as (c & -> & Hin); [|done].
    apply Nat.mod_upper_bound. by vm_compute.
Qed.
End body.

(** X18. Where every file comes with its [mimetype], the library is not
    asked to guess: the result is the same whatever it would answer. *)
Theorem encode_multipart_mimetype_given (guess1 guess2 : string → option string)
    (random_index : nat → nat) fields files boundary :
  Forall (λ kv : string * file_value, is_Some (mimetype kv.2)) files →
  encode_multipart guess1 random_index fields files boundary
  = encode_multipart guess2 random_index fields files boundary.
Proof.
  intros Hall. unfold encode_multipart.
  assert (∀ b, List.map (file_lines guess1 b) files
               = List.map (file_lines guess2 b) files) as Hmap.
  { intros b. induction Hall as [|[name value] files [m Hm] _ IH]; simpl; [done|].
    simpl in Hm. by rewrite Hm, IH. }
  by rewrite Hmap.
Qed.

(** * The further properties on concrete inputs *)

Lemma decorate_steps {value world : Type}
    (apply : pyfunction → value → list value → kwargs value → M world value)
    (s : state world) (self : MultiMethod) module nargs function :
  rtc (step apply) (s, self) ((decorate module nargs function s).2, self).
Proof.
  rewrite decorate_run.
  change (rtc (step apply) (s, self) ((multimethod module nargs s).2, self)).
  eapply rtc_l.
  { eapply (step_multimethod apply s self module nargs). apply surjective_pairing. }
  apply rtc_once.
  eapply (step_decorate apply (multimethod module nargs s).2 self module nargs function).
  apply register_run.
Qed.

Lemma shapes_steps :
  rtc (step shapes_apply) (shapes_empty, shapes_area_1)
    ((MultiMethod_call shapes_apply shapes_registered VNone [VInt 2] [] shapes_loaded).2,
     shapes_registered).
Proof.
  eapply rtc_trans.
  { apply (decorate_steps shapes_apply shapes_empty shapes_area_1 "shapes" 1 area_radius). }
  eapply rtc_trans.
  { apply (decorate_steps shapes_apply (decorate "shapes" 1 area_radius shapes_empty).2
             shapes_area_1 "shapes" 2 area_rectangle). }
  fold shapes_loaded.
  eapply rtc_l.
  { apply (step_register shapes_apply shapes_loaded shapes_area_1 2 area_rectangle
             "shapes" shapes_registered). vm_compute; reflexivity. }
  apply rtc_once.
  apply (step_call shapes_apply shapes_loaded shapes_registered VNone [VInt 2] []
           (MultiMethod_call shapes_apply shapes_registered VNone [VInt 2] []
              shapes_loaded).1).
  apply surjective_pairing.
Qed.

Lemma registered_forever_witness :
  self_methodmap shapes_registered !! "shapes.area.1" = Some area_radius.
Proof.
  apply (registered_forever shapes_apply shapes_empty shapes_area_1 _ shapes_registered
           "shapes.area.1" area_radius shapes_steps).
  vm_compute; reflexivity.
Defined.

Lemma register_then_call_witness :
  MultiMethod_call shapes_apply shapes_area_1 VNone [VInt 2] [] shapes_empty
  = shapes_apply area_radius VNone [VInt 2] [] shapes_empty ∧
  MultiMethod_call shapes_apply shapes_area_1 VNone [] [] shapes_empty
  = (inl NoMatchingOverload, shapes_empty).
Proof.
  split.
  - exact (register_then_call shapes_apply (MultiMethod_init "shapes" "area")
             shapes_area_1 1 area_radius VNone [VInt 2] [] shapes_empty eq_refl eq_refl).
  - exact (register_then_call shapes_apply (MultiMethod_init "shapes" "area")
             shapes_area_1 1 area_radius VNone [] [] shapes_empty eq_refl eq_refl).
Defined.

Lemma registry_stays_bare_witness :
  (∀ module name, lookup_mm shapes_loaded module name = None) ∧
  (∀ g instance args kw, getter_call shapes_apply g instance args kw shapes_loaded = None) ∧
  self_lastreg shapes_registered = None.
Proof.
  exact (registry_stays_bare shapes_apply shapes_log shapes_loaded shapes_registered
           shapes_frame shapes_reachable).
Defined.

Lemma readTokenFile_token_witness :
  ∃ tok pre post rest,
    readTokenFile alice_environ "/home/alice/.datalab/id_token.alice"
    = (inr tok, [Eexists "/home/alice/.datalab/id_token.alice";
                 Eopen "/home/alice/.datalab/id_token.alice"]) ∧
    "alice.42.42.secret" +:+ String newline "" = (pre +:+ tok +:+ post) +:+ rest ∧
    (String.length (pre +:+ tok +:+ post) ≤ 128)%nat ∧
    (rest = "" ∨ String.length (pre +:+ tok +:+ post) = 128%nat) ∧
    Forall (λ c, c = newline) (list_ascii_of_string pre) ∧
    Forall (λ c, c = newline) (list_ascii_of_string post) ∧
    head (list_ascii_of_string tok) ≠ Some newline ∧
    last (list_ascii_of_string tok) ≠ Some newline.
Proof.
  exact (readTokenFile_token alice_environ "/home/alice/.datalab/id_token.alice"
           ("alice.42.42.secret" +:+ String newline "") eq_refl eq_refl).
Defined.

Lemma alice_not_empty : "alice" ≠ "".
Proof. done. Qed.

Lemma def_token_user_name_file_witness :
  def_token alice_environ (Some "alice")
  = (inr "alice.42.42.secret",
     [Eexpanduser; Eexists "/home/alice/.datalab/id_token.alice";
      Eopen "/home/alice/.datalab/id_token.alice"]).
Proof.
  exact (def_token_user_name_file alice_environ "alice" alice_not_empty eq_refl).
Defined.

Lemma def_token_returns_witness :
  "alice.42.42.secret" = "anonymous.0.0.anon_access" ∨
  (None = Some "alice.42.42.secret" ∧
   (4 ≤ length (split "." "alice.42.42.secret"))%nat) ∨
  ∃ user text,
    let tok_file := ("/home/alice" +:+ "/.datalab") +:+ "/id_token." +:+ user in
    path_exists alice_environ tok_file = true ∧
    open_read alice_environ tok_file = inr text ∧
    "alice.42.42.secret" = strip_newline (read 128 text).
Proof.
  exact (def_token_returns alice_environ None "alice.42.42.secret" eq_refl).
Defined.

Lemma def_token_raises_witness :
  let home := "/home/bob" +:+ "/.datalab" in
  ((Some "bob" = None ∨ Some "bob" = Some "") ∧
   (getlogin locked_environ = inl (OSError "Permission denied") ∨
    config_read locked_environ (home +:+ "/dl.conf") = inl (OSError "Permission denied") ∨
    config_get locked_environ (home +:+ "/dl.conf") "login" "status"
    = inl (OSError "Permission denied") ∨
    config_get locked_environ (home +:+ "/dl.conf") "login" "user"
    = inl (OSError "Permission denied"))) ∨
  ∃ user,
    ((Some "bob" = None ∨ Some "bob" = Some "") ∨
     (Some "bob" = Some user ∧ count_char "." user = 0%nat)) ∧
    path_exists locked_environ (home +:+ "/id_token." +:+ user) = true ∧
    open_read locked_environ (home +:+ "/id_token." +:+ user)
    = inl (OSError "Permission denied").
Proof.
  exact (def_token_raises locked_environ (Some "bob") (OSError "Permission denied")
           eq_refl).
Defined.

Lemma def_token_with_conf_witness :
  (Egetlogin ∉ (def_token loggedout_environ None).2) ∧
  def_token loggedout_environ None
  = (inr "anonymous.0.0.anon_access",
     [Eexpanduser; Eexists "/home/carol/.datalab/dl.conf";
      Econfig_read "/home/carol/.datalab/dl.conf"; Econfig_get "login" "status"]).
Proof.
  destruct (def_token_with_conf loggedout_environ None (or_introl eq_refl) eq_refl)
    as [Hnever Hanon].
  split; [exact Hnever|].
  apply (Hanon (Some "loggedout")); done.
Defined.

Lemma def_token_no_terminal_witness :
  def_token locked_environ None
  = (inl (OSError "Inappropriate ioctl for device"),
     [Eexpanduser; Eexists "/home/bob/.datalab/dl.conf"; Egetlogin]).
Proof.
  exact (def_token_no_terminal locked_environ None
           (OSError "Inappropriate ioctl for device") (or_introl eq_refl) eq_refl eq_refl).
Defined.

Lemma escape_quote_no_bare_quote_witness :
  ∃ j, 2%nat = S j ∧
       String.get j (escape_quote ("a" +:+ String quote "b")) = Some backslash.
Proof.
  exact (escape_quote_no_bare_quote ("a" +:+ String quote "b") 2 eq_refl).
Defined.

Lemma escape_quote_inj_witness :
  "a" +:+ String quote "b" = String "a" (String quote "b").
Proof.
  exact (escape_quote_inj ("a" +:+ String quote "b") (String "a" (String quote "b"))
           eq_refl).
Defined.

Lemma encode_multipart_mimetype_given_witness :
  encode_multipart guess_text (λ _, 0%nat) [("FIELD", FStr "VALUE")] [data_file]
    (Some "BOUNDARY")
  = encode_multipart (λ _, None) (λ _, 0%nat) [("FIELD", FStr "VALUE")] [data_file]
      (Some "BOUNDARY").
Proof.
  apply (encode_multipart_mimetype_given guess_text (λ _, None)).
  constructor; [by eexists|constructor].
Defined.
